(** * PawCounter font tooling: a shallow embedding of the two ZPIX scripts

    The development embeds [regenerate_zpix_fonts.py] and
    [test_zpix_font.py] and proves the properties that the specification
    states about them.

    Conventions.
    - A Python [int] is a [Z].
    - A Python [str] read by the scripts is a [string]; its characters are
      read as the code points 0..255.  The one-character strings produced by
      [chr] are kept as their code point (a [Z]), since they range over all of
      Unicode.
    - Exceptions are values of [exn]; a computation that may raise returns an
      [Outcome].
    - The file system, the terminal and the external process are explicit
      state (module [Os]). *)

From Stdlib Require Import ZArith QArith Lia String Ascii List DecimalString.
From stdpp Require Import gmap strings list.

Close Scope Q_scope.
Open Scope string_scope.
Open Scope list_scope.
Open Scope Z_scope.

(** ** The Python builtins the scripts call *)

Module Py.

(** The exception classes that can reach the scripts.  All of them derive
    from [Exception]. *)
Inductive exn : Type :=
  | ValueError
  | OverflowError
  | TimeoutExpired
  | FileNotFoundError
  | PermissionError
  | OSError.

Inductive Outcome (A : Type) : Type :=
  | Return (a : A)
  | Raise (e : exn).
Arguments Return {A} a.
Arguments Raise {A} e.

Definition obind {A B} (m : Outcome A) (k : A -> Outcome B) : Outcome B :=
  match m with
  | Return a => k a
  | Raise e => Raise e
  end.

Notation "'let*' x ':=' m 'in' k" := (obind m (fun x => k))
  (at level 10, x name, m at level 100, k at level 200).

Definition raises {A} (m : Outcome A) : Prop := exists e, m = Raise e.

(** *** [int(s, 16)]

    CPython's [PyLong_FromString] for base 16: leading white space, one
    optional sign, an optional [0x]/[0X] followed by at most one underscore,
    then hexadecimal digits separated by single underscores, then trailing
    white space.  Anything else is a [ValueError]. *)

(** [Py_ISSPACE] on ASCII, and the two white-space characters of Latin-1
    (NEL and NBSP) that [int] turns into a blank before parsing. *)
Definition is_space (c : ascii) : bool :=
  let n := Z.of_N (N_of_ascii c) in
  ((9 <=? n) && (n <=? 13)) || (n =? 32) || (n =? 133) || (n =? 160).

(** [_PyLong_DigitValue]: 0..9 for digits, 10..35 for letters of either
    case, 37 for every other character. *)
Definition digit_value (c : ascii) : Z :=
  let n := Z.of_N (N_of_ascii c) in
  if (48 <=? n) && (n <=? 57) then n - 48
  else if (97 <=? n) && (n <=? 122) then n - 87
  else if (65 <=? n) && (n <=? 90) then n - 55
  else 37.

Fixpoint skip_space (s : string) : string :=
  match s with
  | String c r => if is_space c then skip_space r else s
  | EmptyString => s
  end.

(** The digit loop of [long_from_binary_base]: [prev_us] tells whether the
    previous character was an underscore.  [None] is its error return. *)
Fixpoint scan_digits (prev_us : bool) (acc : Z) (s : string) : option (Z * string) :=
  match s with
  | String c r =>
      if Ascii.eqb c "_" then
        if prev_us then None else scan_digits true acc r
      else if digit_value c <? 16 then
        scan_digits false (acc * 16 + digit_value c) r
      else if prev_us then None else Some (acc, s)
  | EmptyString => if prev_us then None else Some (acc, s)
  end.

Definition strip_sign (s : string) : Z * string :=
  match s with
  | String c r =>
      if Ascii.eqb c "+" then (1, r)
      else if Ascii.eqb c "-" then (-1, r)
      else (1, s)
  | EmptyString => (1, s)
  end.

Definition strip_0x (s : string) : string :=
  match s with
  | String c0 (String c1 r) =>
      if Ascii.eqb c0 "0" && (Ascii.eqb c1 "x" || Ascii.eqb c1 "X") then
        match r with
        | String c2 r' => if Ascii.eqb c2 "_" then r' else r
        | EmptyString => r
        end
      else s
  | _ => s
  end.

Definition starts_with_underscore (s : string) : bool :=
  match s with
  | String c _ => Ascii.eqb c "_"
  | EmptyString => false
  end.

Definition int16 (s : string) : Outcome Z :=
  let '(sign, s1) := strip_sign (skip_space s) in
  let start := strip_0x s1 in
  if starts_with_underscore start then Raise ValueError
  else
    match scan_digits false 0 start with
    | None => Raise ValueError
    | Some (v, rest) =>
        if Nat.eqb (String.length rest) (String.length start) then Raise ValueError
        else
          match skip_space rest with
          | EmptyString => Return (sign * v)
          | String _ _ => Raise ValueError
          end
    end.

(** *** [chr(i)]: the one-character string of code point [i]. *)
Definition chr (i : Z) : Outcome Z :=
  if (0 <=? i) && (i <? 1114112) then Return i
  else if (- 2147483648 <=? i) && (i <=? 2147483647) then Raise ValueError
  else Raise OverflowError.

(** *** [range(a, b)] as the list of the integers it yields. *)
Definition range (a b : Z) : list Z :=
  map (fun k => a + Z.of_nat k) (seq 0 (Z.to_nat (b - a))).

(** *** [s.split(sep)] for a one-character separator. *)
Fixpoint split (sep : ascii) (s : string) : list string :=
  match s with
  | EmptyString => [EmptyString]
  | String c r =>
      if Ascii.eqb c sep then EmptyString :: split sep r
      else
        match split sep r with
        | t :: ts => String c t :: ts
        | [] => [String c EmptyString]
        end
  end.

(** *** [c in s] for a one-character [c]. *)
Fixpoint contains (c : ascii) (s : string) : bool :=
  match s with
  | EmptyString => false
  | String d r => Ascii.eqb d c || contains c r
  end.

(** *** [sep.join(l)]. *)
Fixpoint join (sep : string) (l : list string) : string :=
  match l with
  | [] => EmptyString
  | [x] => x
  | x :: rest => String.append x (String.append sep (join sep rest))
  end.

(** *** [str(n)] for an [int]. *)
Definition str (n : Z) : string := NilZero.string_of_int (Z.to_int n).

End Py.

Import Py.

(** ** What the scripts print

    One constructor per [print] statement of the embedded functions, with the
    values the statement interpolates.  Numbers that Python formats from a
    float division are kept as the exact rational. *)

Inductive Line : Type :=
  (* regenerate_zpix_fonts.py *)
  | ToolAvailable                                   (* check_lv_font_conv, line 16 *)
  | ToolUnavailable                                 (* check_lv_font_conv, line 21 *)
  | SourceMissing                                   (* generate_font, line 27 *)
  | Generating (size : Z)                           (* generate_font, line 44 *)
  | CommandLine (cmd : string)                      (* generate_font, line 45 *)
  | Generated (size : Z) (output_file : string)     (* generate_font, line 50 *)
  | FileSizeKB (size_kb : Q)                        (* generate_font, line 53 *)
  | GenerationFailed (stderr : string)              (* generate_font, line 56 *)
  | GenerationTimeout                               (* generate_font, line 59 *)
  | GenerationError (e : exn)                       (* generate_font, line 62 *)
  | BatchHeader                                     (* generate_test_fonts, line 67 *)
  | BatchSummary (success_count total : Z)          (* generate_test_fonts, line 81 *)
  | Advice (n : Z)                                  (* generate_test_fonts, lines 84-87 *)
  (* test_zpix_font.py *)
  | FileExists (file : string)                      (* check_generated_files, line 31 *)
  | FileSize (size : Z)                             (* check_generated_files, line 34 *)
  | FileMissing (file : string)                     (* check_generated_files, line 36 *)
  | RangeHeader                                     (* analyze_character_range, line 42 *)
  | RangeOriginal (range_hex : string)              (* analyze_character_range, line 43 *)
  | RangeChars (chars : list Z)                     (* analyze_character_range, line 61 *)
  | RangeCount (n : Z)                              (* analyze_character_range, line 62 *)
  | MemoryHeader                                    (* check_memory_usage, line 96 *)
  | Size20 (size : Z)                               (* check_memory_usage, line 100 *)
  | Size60 (size : Z)                               (* check_memory_usage, line 104 *)
  | Total (total : Z) (kb : Q)                      (* check_memory_usage, line 107 *)
  | Esp32Header                                     (* check_memory_usage, line 113 *)
  | FlashUsage (percent : Q) (total flash : Z)      (* check_memory_usage, line 114 *)
  | RamNote.                                        (* check_memory_usage, line 115 *)

(** ** The world the scripts run in *)

Module Os.

(** [fs] maps every path that [os.stat] can reach to the size of the file
    there; a path that is missing or not accessible has no entry.
    [spawned] lists the commands handed to [subprocess.run], oldest first;
    [printed] lists the lines written to the terminal, oldest first. *)
Record World : Type := mkWorld {
  fs : gmap string N;
  spawned : list (list string);
  printed : list Line
}.

(** A computation reads and writes the world and returns or raises; what it
    did to the world before raising stays done. *)
Definition M (A : Type) : Type := World -> Outcome A * World.

Definition ret {A} (a : A) : M A := fun w => (Return a, w).

Definition raise {A} (e : exn) : M A := fun w => (Raise e, w).

Definition bind {A B} (m : M A) (k : A -> M B) : M B :=
  fun w =>
    match m w with
    | (Return a, w') => k a w'
    | (Raise e, w') => (Raise e, w')
    end.

(** [try: m except <class of e>: h e] with handlers that cover every
    exception of [exn]. *)
Definition try_except {A} (m : M A) (h : exn -> M A) : M A :=
  fun w =>
    match m w with
    | (Return a, w') => (Return a, w')
    | (Raise e, w') => h e w'
    end.

Definition lift {A} (o : Outcome A) : M A := fun w => (o, w).

Definition print (l : Line) : M unit :=
  fun w => (Return tt, mkWorld (fs w) (spawned w) (printed w ++ [l])).

(** [os.path.exists]: true exactly when [os.stat] succeeds. *)
Definition path_exists (p : string) : M bool :=
  fun w => (Return (match fs w !! p with Some _ => true | None => false end), w).

(** [os.path.getsize]: the size that [os.stat] reports, [OSError] when it
    fails. *)
Definition getsize (p : string) : M Z :=
  fun w =>
    match fs w !! p with
    | Some n => (Return (Z.of_N n), w)
    | None => (Raise OSError, w)
    end.

End Os.

Import Os.

Declare Scope py_scope.
Notation "x <- m ;; k" := (bind m (fun x => k))
  (at level 20, m at level 99, k at level 200) : py_scope.
Notation "m ;; k" := (bind m (fun _ => k))
  (at level 100, k at level 200, right associativity) : py_scope.
Open Scope py_scope.

(** ** test_zpix_font.py *)

Module TestZpix.

(** *** check_generated_files *)

Definition font_files : list string :=
  [ "src/fonts/lv_font_zpix_20.c";
    "src/fonts/lv_font_zpix_60.c";
    "src/fonts/lv_font_zpix.h" ].

(** The [for file in font_files] loop, for any list of paths. *)
Fixpoint inspect (files : list string) : M unit :=
  match files with
  | [] => ret tt
  | file :: rest =>
      (e <- path_exists file ;;
       if e then
         print (FileExists file);;
         size <- getsize file ;;
         print (FileSize size)
       else
         print (FileMissing file));;
      inspect rest
  end.

Definition check_generated_files : M unit := inspect font_files.

(** *** analyze_character_range *)

Definition range_hex : string :=
  "0x30-0x39,0x2B,0x2D,0x2A,0x2F,0x3D,0x2E,0x25,0x28,0x29,0x43,0x45,0x49,0x4E,0x4F,0x52,0x72,0x6F,0x65,0x74,0x61,0x6E,0x20,0x2C,0xA5,0x24".

(** [for i in range(..): chars.append(chr(i))] *)
Fixpoint append_chars (indices : list Z) (chars : list Z) : Outcome (list Z) :=
  match indices with
  | [] => Return chars
  | i :: rest =>
      let* c := chr i in
      append_chars rest (chars ++ [c])
  end.

(** The body of [for r in ranges]. *)
Definition decode_token (r : string) (chars : list Z) : Outcome (list Z) :=
  if contains "-" r then
    match split "-" r with
    | [start; end_] =>
        let* start_val := int16 start in
        let* end_val := int16 end_ in
        append_chars (range start_val (end_val + 1)) chars
    | _ => Raise ValueError
    end
  else
    let* v := int16 r in
    let* c := chr v in
    Return (chars ++ [c]).

Fixpoint decode_tokens (ranges : list string) (chars : list Z) : Outcome (list Z) :=
  match ranges with
  | [] => Return chars
  | r :: rest =>
      let* chars' := decode_token r chars in
      decode_tokens rest chars'
  end.

(** Lines 46-59 of [analyze_character_range], for any range expression:
    the list [chars] when the loop ends. *)
Definition decode (range_hex : string) : Outcome (list Z) :=
  decode_tokens (split "," range_hex) [].

Definition analyze_character_range : M unit :=
  print RangeHeader;;
  print (RangeOriginal range_hex);;
  chars <- lift (decode range_hex) ;;
  print (RangeChars chars);;
  print (RangeCount (Z.of_nat (length chars))).

(** *** check_memory_usage *)

(** Line 106: the sum when both names are bound, else 0. *)
Definition memory_total (size_20 size_60 : option Z) : Z :=
  match size_20, size_60 with
  | Some a, Some b => a + b
  | _, _ => 0
  end.

Definition esp32_flash : Z := 2 * 1024 * 1024.
Definition esp32_ram : Z := 327680.

(** [total/esp32_flash*100] *)
Definition flash_percent (total flash : Z) : Q :=
  (inject_Z total / inject_Z flash * inject_Z 100)%Q.

(** [if os.path.exists(p): size = os.path.getsize(p); print(..)]: the
    variable is bound only when the file exists. *)
Definition measure (p : string) (report : Z -> Line) : M (option Z) :=
  e <- path_exists p ;;
  if e then
    size <- getsize p ;;
    print (report size);;
    ret (Some size)
  else ret None.

Definition check_memory_usage : M unit :=
  print MemoryHeader;;
  size_20 <- measure "src/fonts/lv_font_zpix_20.c" Size20 ;;
  size_60 <- measure "src/fonts/lv_font_zpix_60.c" Size60 ;;
  let total := memory_total size_20 size_60 in
  print (Total total (inject_Z total / inject_Z 1024)%Q);;
  print Esp32Header;;
  print (FlashUsage (flash_percent total esp32_flash) total esp32_flash);;
  print RamNote.

End TestZpix.

(** ** regenerate_zpix_fonts.py *)

Module Regenerate.

(** What [subprocess.run(..., capture_output=True, text=True)] returns. *)
Record CompletedProcess : Type := mkCompleted {
  returncode : Z;
  stdout : string;
  stderr : string
}.

(** [subprocess.run] either returns or raises ([TimeoutExpired] when the
    timeout passes, [FileNotFoundError] and other [OSError]s when the process
    cannot be started). *)
Inductive RunResult : Type :=
  | Completed (p : CompletedProcess)
  | Failed (e : exn).

Section Tool.

(** The external process is a parameter: given the commands run so far, the
    file system, the command and the timeout, it tells how the run ends and
    what the file system is afterwards. *)
Variable process :
  list (list string) -> gmap string N -> list string -> Z -> RunResult * gmap string N.

Definition subprocess_run (cmd : list string) (timeout : Z) : M CompletedProcess :=
  fun w =>
    let '(r, fs') := process (spawned w) (fs w) cmd timeout in
    let w' := mkWorld fs' (spawned w ++ [cmd]) (printed w) in
    match r with
    | Completed p => (Return p, w')
    | Failed e => (Raise e, w')
    end.

(** *** check_lv_font_conv

    The [try] block either returns [True] from the function ([Some true]) or
    falls through ([None]); the bare [except] catches everything. *)
Definition check_lv_font_conv : M bool :=
  early <- try_except
             (result <- subprocess_run ["npx"; "lv_font_conv"; "--help"] 10 ;;
              if returncode result =? 0 then
                print ToolAvailable ;;
                ret (Some true)
              else ret None)
             (fun _ => ret None) ;;
  match early with
  | Some b => ret b
  | None =>
      print ToolUnavailable ;;
      ret false
  end.

(** *** generate_font *)

Definition char_range : string :=
  "0x30-0x39,0x2B,0x2D,0x2A,0x2F,0x3D,0x2E,0x25,0x28,0x29,0x43,0x45,0x49,0x4E,0x4F,0x52,0x72,0x6F,0x65,0x74,0x61,0x6E,0x20,0x2C,0xA5,0x24".

Definition cmd_of (size : Z) (output_file : string) : list string :=
  [ "npx"; "lv_font_conv";
    "--font"; "zpix.ttf";
    "--size"; str size;
    "--bpp"; "4";
    "--format"; "lvgl";
    "--no-compress";
    "--output"; output_file;
    "--range"; char_range ].

Definition generate_font (size : Z) (output_file : string) : M bool :=
  e <- path_exists "zpix.ttf" ;;
  if negb e then
    print SourceMissing ;;
    ret false
  else
    let cmd := cmd_of size output_file in
    print (Generating size) ;;
    print (CommandLine (join " " cmd)) ;;
    try_except
      (result <- subprocess_run cmd 60 ;;
       if returncode result =? 0 then
         print (Generated size output_file) ;;
         present <- path_exists output_file ;;
         (if present then
            bytes <- getsize output_file ;;
            print (FileSizeKB (inject_Z bytes / inject_Z 1024)%Q)
          else ret tt) ;;
         ret true
       else
         print (GenerationFailed (stderr result)) ;;
         ret false)
      (fun e =>
         match e with
         | TimeoutExpired =>
             print GenerationTimeout ;;
             ret false
         | _ =>
             print (GenerationError e) ;;
             ret false
         end).

(** *** generate_test_fonts *)

Definition test_sizes : list (Z * string) :=
  [ (30, "src/fonts/lv_font_zpix_30.c");
    (80, "src/fonts/lv_font_zpix_80.c");
    (100, "src/fonts/lv_font_zpix_100.c") ].

(** The [for size, output in test_sizes] loop with its counter. *)
Fixpoint count_generated (sizes : list (Z * string)) (success_count : Z) : M Z :=
  match sizes with
  | [] => ret success_count
  | (size, output) :: rest =>
      ok <- generate_font size output ;;
      count_generated rest (if ok then success_count + 1 else success_count)
  end.

(** The body of [generate_test_fonts] for any list of requests. *)
Definition generate_fonts (sizes : list (Z * string)) : M unit :=
  print BatchHeader ;;
  success_count <- count_generated sizes 0 ;;
  print (BatchSummary success_count (Z.of_nat (length sizes))) ;;
  if 0 <? success_count then
    print (Advice 0) ;;
    print (Advice 1) ;;
    print (Advice 2) ;;
    print (Advice 3)
  else ret tt.

Definition generate_test_fonts : M unit := generate_fonts test_sizes.

End Tool.

End Regenerate.

(** ** The specification's vocabulary

    These definitions follow the specification's words, not the scripts;
    the theorems below compare the two. *)

Module Spec.

(** A token of a character-range expression, as a tagged variant. *)
Inductive Token : Type :=
  | Interval (lo hi : Z)
  | Single (value : Z).

(** Every integer of [lo..hi] in ascending order, or the single value. *)
Definition expand (t : Token) : list Z :=
  match t with
  | Interval lo hi => seqZ lo (hi - lo + 1)
  | Single v => [v]
  end.

(** Per-token results concatenated in token order. *)
Definition spec_decode (tokens : list Token) : list Z :=
  concat (map expand tokens).

(** Code points are the integers below 0x110000. *)
Definition code_point (v : Z) : Prop := 0 <= v < 1114112.

Definition well_formed (t : Token) : Prop :=
  match t with
  | Interval lo hi => code_point lo /\ code_point hi /\ lo <= hi
  | Single v => code_point v
  end.

(** The value of a hexadecimal digit, [None] for any other character. *)
Definition hex_digit (c : ascii) : option Z :=
  match index 0 (String c "") "0123456789abcdef" with
  | Some i => Some (Z.of_nat i)
  | None =>
      match index 0 (String c "") "0123456789ABCDEF" with
      | Some i => Some (Z.of_nat i)
      | None => None
      end
  end.

Definition is_hex (c : ascii) : bool :=
  match hex_digit c with
  | Some _ => true
  | None => false
  end.

Fixpoint all_hex (s : string) : bool :=
  match s with
  | EmptyString => true
  | String c r => is_hex c && all_hex r
  end.

(** A non-empty string of hexadecimal digits. *)
Definition hex_digits (s : string) : Prop :=
  s <> EmptyString /\ all_hex s = true.

(** Its value in base sixteen, most significant digit first. *)
Fixpoint hex_value_from (acc : Z) (s : string) : Z :=
  match s with
  | EmptyString => acc
  | String c r => hex_value_from (16 * acc + default 0 (hex_digit c)) r
  end.

Definition hex_value (s : string) : Z := hex_value_from 0 s.

Definition lower (c : ascii) : ascii :=
  let n := N_of_ascii c in
  if ((65 <=? n) && (n <=? 90))%N then ascii_of_N (n + 32) else c.

Fixpoint lowercase (s : string) : string :=
  match s with
  | EmptyString => EmptyString
  | String c r => String (lower c) (lowercase r)
  end.

(** The optional prefix of a hex literal. *)
Definition hex_prefix (p : string) : Prop := p = "" \/ p = "0x" \/ p = "0X".

(** [literal s v]: [s] is a hex literal, with or without prefix, of value [v]. *)
Inductive literal : string -> Z -> Prop :=
  | literal_intro p ds :
      hex_prefix p -> hex_digits ds -> literal (p +:+ ds) (hex_value ds).

(** [denotes s t]: the text [s] is the token [t]. *)
Inductive denotes : string -> Token -> Prop :=
  | denotes_single s v :
      literal s v -> denotes s (Single v)
  | denotes_interval a b lo hi :
      literal a lo -> literal b hi -> denotes (a +:+ "-" +:+ b) (Interval lo hi).

(** Two hex literals that differ at most in their prefix and in the case of
    their digits. *)
Inductive same_literal : string -> string -> Prop :=
  | same_literal_intro p q ds ds' :
      hex_prefix p -> hex_prefix q ->
      hex_digits ds -> hex_digits ds' ->
      lowercase ds = lowercase ds' ->
      same_literal (p +:+ ds) (q +:+ ds').

Inductive same_token : string -> string -> Prop :=
  | same_single a b :
      same_literal a b -> same_token a b
  | same_interval a1 a2 b1 b2 :
      same_literal a1 b1 -> same_literal a2 b2 ->
      same_token (a1 +:+ "-" +:+ a2) (b1 +:+ "-" +:+ b2).

(** What Python reads as a base-16 integer. *)
Definition valid_literal (s : string) : Prop := exists v, int16 s = Return v.




(** The characters a base-16 integer text may contain. *)
Definition literal_char (c : ascii) : bool :=
  is_space c || is_hex c ||
  Ascii.eqb c "x" || Ascii.eqb c "X" || Ascii.eqb c "_" ||
  Ascii.eqb c "+" || Ascii.eqb c "-".

(** The lines an inspection prints for one path. *)
Definition report_of (fs : gmap string N) (file : string) : list Line :=
  match fs !! file with
  | Some n => [FileExists file; FileSize (Z.of_N n)]
  | None => [FileMissing file]
  end.

(** The sum of the sizes when both artifacts are present, else zero. *)
Definition total_of (size_20 size_60 : option N) : Z :=
  match size_20, size_60 with
  | Some a, Some b => Z.of_N a + Z.of_N b
  | _, _ => 0
  end.

End Spec.

Import Spec.

(** ** Vocabulary of the statements about [regenerate_zpix_fonts.py] *)

(** What [generate_font] returns and prints after the command line, given
    how the run of the tool ended and the file system it left. *)
Definition classify (size : Z) (output_file : string)
    (r : Regenerate.RunResult) (fs' : gmap string N) : bool * list Line :=
  match r with
  | Regenerate.Completed p =>
      if Regenerate.returncode p =? 0 then
        (true,
         Generated size output_file ::
         match fs' !! output_file with
         | Some n => [FileSizeKB (inject_Z (Z.of_N n) / inject_Z 1024)%Q]
         | None => []
         end)
      else (false, [GenerationFailed (Regenerate.stderr p)])
  | Regenerate.Failed TimeoutExpired => (false, [GenerationTimeout])
  | Regenerate.Failed e => (false, [GenerationError e])
  end.

(** [attempts process sizes w oks w']: starting in [w], [generate_font] is
    called once for each request of [sizes], in order, each call returning
    (never raising); [oks] lists what the calls returned and [w'] is the
    world after the last one. *)
Inductive attempts
    (process : list (list string) -> gmap string N -> list string -> Z ->
               Regenerate.RunResult * gmap string N) :
    list (Z * string) -> World -> list bool -> World -> Prop :=
  | attempts_nil w :
      attempts process [] w [] w
  | attempts_cons size output rest w ok w1 oks w2 :
      Regenerate.generate_font process size output w = (Return ok, w1) ->
      attempts process rest w1 oks w2 ->
      attempts process ((size, output) :: rest) w (ok :: oks) w2.

(** The number of [True] results. *)
Fixpoint successes (oks : list bool) : Z :=
  match oks with
  | [] => 0
  | ok :: rest => (if ok then 1 else 0) + successes rest
  end.

(** The number of printed lines that open a call of [generate_font]: each
    call prints exactly one of [SourceMissing] and [Generating]. *)
Fixpoint attempt_marks (lines : list Line) : nat :=
  match lines with
  | [] => 0
  | SourceMissing :: rest => S (attempt_marks rest)
  | Generating _ :: rest => S (attempt_marks rest)
  | _ :: rest => attempt_marks rest
  end.

(** The lines that close a batch with [n] successes out of [m] requests. *)
Definition batch_footer (n m : Z) : list Line :=
  BatchSummary n m ::
  (if 0 <? n then [Advice 0; Advice 1; Advice 2; Advice 3] else []).


(** The line that reports a size, when there is one. *)
Definition size_line (report : Z -> Line) (size : option N) : list Line :=
  match size with
  | Some n => [report (Z.of_N n)]
  | None => []
  end.

(** ** Concrete worlds and tools, for the examples *)

Module Examples.

Definition p20 : string := "src/fonts/lv_font_zpix_20.c".
Definition p60 : string := "src/fonts/lv_font_zpix_60.c".
Definition out30 : string := "src/fonts/lv_font_zpix_30.c".

(** Nothing on disk. *)
Definition bare : World := mkWorld ∅ [] [].

(** Only the font source is on disk. *)
Definition with_source : World := mkWorld {[ "zpix.ttf" := 1000%N ]} [] [].

(** Only the 20px artifact is on disk, 1024 bytes long. *)
Definition only_20 : World := mkWorld {[ p20 := 1024%N ]} [] [].

(** The 20px artifact is 1024 bytes long and the 60px one is empty. *)
Definition both_sizes : World :=
  mkWorld (<[ p60 := 0%N ]> {[ p20 := 1024%N ]}) [] [].

(** A tool that exits with code 0 and writes nothing. *)
Definition silent_tool (history : list (list string)) (fs : gmap string N)
    (cmd : list string) (timeout : Z) : Regenerate.RunResult * gmap string N :=
  (Regenerate.Completed (Regenerate.mkCompleted 0 "" ""), fs).

(** A tool that exits with code 0 after writing 2048 bytes to the path that
    follows [--output]. *)
Definition writing_tool (history : list (list string)) (fs : gmap string N)
    (cmd : list string) (timeout : Z) : Regenerate.RunResult * gmap string N :=
  (Regenerate.Completed (Regenerate.mkCompleted 0 "" ""),
   <[ nth 12 cmd "" := 2048%N ]> fs).

(** A tool that cannot be started. *)
Definition absent_tool (history : list (list string)) (fs : gmap string N)
    (cmd : list string) (timeout : Z) : Regenerate.RunResult * gmap string N :=
  (Regenerate.Failed FileNotFoundError, fs).

(** A tool that succeeds on its first and third runs and exits with code 1
    on the others. *)
Definition flaky_tool (history : list (list string)) (fs : gmap string N)
    (cmd : list string) (timeout : Z) : Regenerate.RunResult * gmap string N :=
  match length history with
  | 0%nat | 2%nat => (Regenerate.Completed (Regenerate.mkCompleted 0 "" ""), fs)
  | _ => (Regenerate.Completed (Regenerate.mkCompleted 1 "" "error"), fs)
  end.

End Examples.

(** ** The rest of the two scripts, and [detect_os.py]

    The functions embedded so far print through [Line].  The remaining
    functions print other lines ([Note]) and can end in an exception that
    [exn] does not list (the end of input); they run in a [Session], which
    holds the world of the functions above, unchanged, beside a second log. *)

Module PyStr.

(** [str.isspace] on the code points below 256. *)
Definition isspace (c : ascii) : bool :=
  let n := Z.of_N (N_of_ascii c) in
  ((9 <=? n) && (n <=? 13)) || ((28 <=? n) && (n <=? 32)) ||
  (n =? 133) || (n =? 160).

Fixpoint lstrip (s : string) : string :=
  match s with
  | String c r => if isspace c then lstrip r else s
  | EmptyString => EmptyString
  end.

Fixpoint rstrip (s : string) : string :=
  match s with
  | String c r =>
      match rstrip r with
      | EmptyString => if isspace c then EmptyString else String c EmptyString
      | r' => String c r'
      end
  | EmptyString => EmptyString
  end.

(** [s.strip()] *)
Definition strip (s : string) : string := rstrip (lstrip s).

(** The lower-case form of a character below 256: the ASCII capitals and
    the accented capitals 0xC0..0xDE except the multiplication sign. *)
Definition lower_char (c : ascii) : ascii :=
  let n := Z.of_N (N_of_ascii c) in
  if ((65 <=? n) && (n <=? 90)) ||
     ((192 <=? n) && (n <=? 222) && negb (n =? 215))
  then ascii_of_N (N_of_ascii c + 32)
  else c.

(** [s.lower()] *)
Fixpoint lower (s : string) : string :=
  match s with
  | String c r => String (lower_char c) (lower r)
  | EmptyString => EmptyString
  end.

(** [x in l] for a list of strings. *)
Fixpoint str_in (x : string) (l : list string) : bool :=
  match l with
  | [] => false
  | y :: rest => String.eqb x y || str_in x rest
  end.

(** [enumerate(l, start)] *)
Fixpoint enumerate {A} (l : list A) (start : Z) : list (Z * A) :=
  match l with
  | [] => []
  | x :: rest => (start, x) :: enumerate rest (start + 1)
  end.

End PyStr.

Module Script.

(** How a script can end besides returning: an exception of [exn], or the
    [EOFError] that [input] raises at the end of input. *)
Inductive fault : Type :=
  | Std (e : exn)
  | EOFError.

Inductive Result (A : Type) : Type :=
  | Done (a : A)
  | Uncaught (f : fault).
Arguments Done {A} a.
Arguments Uncaught {A} f.

(** The text of a hard-coded message, named by its place in its list. *)
Inductive text : Type := Text (k : nat).

(** One constructor per remaining [print] statement. *)
Inductive Note : Type :=
  (* regenerate_zpix_fonts.py *)
  | AnalysisHeader                          (* analyze_zpix_font, line 91 *)
  | AnalysisNoSource                        (* analyze_zpix_font, line 94 *)
  | AnalysisLine (line : nat)               (* analyze_zpix_font, lines 97-108 *)
  | RegenBanner                             (* main, line 112 *)
  | RegenRule                               (* main, line 113 *)
  | InstallHelp (line : nat)                (* main, lines 120-121 *)
  | Prompt                                  (* main, line 125: the prompt of input *)
  | RegenDone                               (* main, line 129 *)
  (* test_zpix_font.py *)
  | FontFileMissing (font_file : string)    (* check_font_file, line 15 *)
  | FontFilePresent (font_file : string)    (* check_font_file, line 18 *)
  | OptimizeHeader                          (* optimize_font_parameters, line 66 *)
  | Recommendation (rec : text)             (* optimize_font_parameters, line 77 *)
  | ImproveHeader                           (* suggest_improvements, line 81 *)
  | Improvement (i : Z) (improvement : text) (* suggest_improvements, line 92 *)
  | TestBanner                              (* main, line 119 *)
  | TestRule                                (* main, line 120 *)
  | TestDone.                               (* main, line 134 *)

(** [notes] holds the remaining lines, oldest first, each with the number of
    lines of [printed] that were on the terminal before it. *)
Record Session : Type := mkSession {
  world : World;
  notes : list (nat * Note)
}.

Definition Act (A : Type) : Type := Session -> Result A * Session.

Definition sret {A} (a : A) : Act A := fun s => (Done a, s).

Definition sraise {A} (f : fault) : Act A := fun s => (Uncaught f, s).

Definition sbind {A B} (m : Act A) (k : A -> Act B) : Act B :=
  fun s =>
    match m s with
    | (Done a, s') => k a s'
    | (Uncaught f, s') => (Uncaught f, s')
    end.

(** A call of one of the functions embedded in [M]. *)
Definition call {A} (m : M A) : Act A :=
  fun s =>
    match m (world s) with
    | (Return a, w) => (Done a, mkSession w (notes s))
    | (Raise e, w) => (Uncaught (Std e), mkSession w (notes s))
    end.

Definition note (n : Note) : Act unit :=
  fun s =>
    (Done tt,
     mkSession (world s) (notes s ++ [(length (printed (world s)), n)])).

(** The terminal, in order: before the line of [printed] at position [i]
    come the notes stamped [i]. *)
Definition notes_at (i : nat) (ns : list (nat * Note)) : list (Line + Note) :=
  map (fun p => inr (snd p)) (List.filter (fun p => Nat.eqb (fst p) i) ns).

Fixpoint weave (i : nat) (lines : list Line) (ns : list (nat * Note))
    : list (Line + Note) :=
  match lines with
  | [] => notes_at i ns
  | l :: rest => notes_at i ns ++ inl l :: weave (S i) rest ns
  end.

Definition transcript (s : Session) : list (Line + Note) :=
  weave 0 (printed (world s)) (notes s).

Declare Scope script_scope.
Notation "x <- m ;; k" := (sbind m (fun x => k))
  (at level 20, m at level 99, k at level 200) : script_scope.
Notation "m ;; k" := (sbind m (fun _ => k))
  (at level 100, k at level 200, right associativity) : script_scope.
#[local] Open Scope script_scope.

(** [for x in l: body x] *)
Fixpoint for_each {A} (l : list A) (body : A -> Act unit) : Act unit :=
  match l with
  | [] => sret tt
  | x :: rest =>
      body x ;;
      for_each rest body
  end.

(** *** test_zpix_font.py: check_font_file *)
Definition check_font_file : Act bool :=
  let font_file := "zpix.ttf" in
  e <- call (path_exists font_file) ;;
  if negb e then
    note (FontFileMissing font_file) ;;
    sret false
  else
    note (FontFilePresent font_file) ;;
    sret true.

(** *** test_zpix_font.py: optimize_font_parameters *)
Definition recommendations : list text :=
  [Text 1; Text 2; Text 3; Text 4; Text 5].

Definition optimize_font_parameters : Act unit :=
  note OptimizeHeader ;;
  for_each recommendations (fun rec => note (Recommendation rec)).

(** *** test_zpix_font.py: suggest_improvements *)
Definition improvements : list text :=
  [Text 1; Text 2; Text 3; Text 4; Text 5].

Definition suggest_improvements : Act unit :=
  note ImproveHeader ;;
  for_each (PyStr.enumerate improvements 1)
    (fun '(i, improvement) => note (Improvement i improvement)).

(** *** test_zpix_font.py: main *)
Definition test_main : Act unit :=
  note TestBanner ;;
  note TestRule ;;
  _ <- check_font_file ;;
  call TestZpix.check_generated_files ;;
  call TestZpix.analyze_character_range ;;
  optimize_font_parameters ;;
  suggest_improvements ;;
  call TestZpix.check_memory_usage ;;
  note TestDone.

(** *** regenerate_zpix_fonts.py: analyze_zpix_font *)
Definition analyze_zpix_font : Act unit :=
  note AnalysisHeader ;;
  e <- call (path_exists "zpix.ttf") ;;
  if negb e then
    note AnalysisNoSource
  else
    for_each [97; 98; 99; 100; 101; 102; 104; 105; 106; 107; 108]%nat
      (fun line => note (AnalysisLine line)).

Section Main.

(** The external process, as before, and what the user types: the line that
    [input] returns, or [None] at the end of input. *)
Variable process :
  list (list string) -> gmap string N -> list string -> Z ->
  Regenerate.RunResult * gmap string N.
Variable reply : option string.

(** [input(prompt)] *)
Definition input : Act string :=
  note Prompt ;;
  match reply with
  | Some line => sret line
  | None => sraise EOFError
  end.

(** *** regenerate_zpix_fonts.py: main

    [None] from the first part is the early [return]. *)
Definition regenerate_main : Act unit :=
  note RegenBanner ;;
  note RegenRule ;;
  analyze_zpix_font ;;
  available <- call (Regenerate.check_lv_font_conv process) ;;
  if negb available then
    note (InstallHelp 120) ;;
    note (InstallHelp 121)
  else
    line <- input ;;
    let response := PyStr.lower (PyStr.strip line) in
    (if PyStr.str_in response ["y"; "yes"] then
       call (Regenerate.generate_test_fonts process)
     else sret tt) ;;
    note RegenDone.

End Main.

End Script.

(** What the statements about a batch assume of the external process. *)
Definition keeps_source
    (process : list (list string) -> gmap string N -> list string -> Z ->
               Regenerate.RunResult * gmap string N) : Prop :=
  forall history fs cmd timeout,
    is_Some (fs !! "zpix.ttf") ->
    is_Some (snd (process history fs cmd timeout) !! "zpix.ttf").

Definition always_exit_zero
    (process : list (list string) -> gmap string N -> list string -> Z ->
               Regenerate.RunResult * gmap string N) : Prop :=
  forall history fs cmd timeout,
    exists p, fst (process history fs cmd timeout) = Regenerate.Completed p /\
              Regenerate.returncode p = 0.

Definition never_exit_zero
    (process : list (list string) -> gmap string N -> list string -> Z ->
               Regenerate.RunResult * gmap string N) : Prop :=
  forall history fs cmd timeout p,
    fst (process history fs cmd timeout) = Regenerate.Completed p ->
    Regenerate.returncode p <> 0.

(** *** detect_os.py

    The construction environment of the build system is a finite map from
    variable names to values; [system] is what [platform.system()] returns. *)
Module DetectOs.

Inductive Message : Type :=
  | DetectedWindows                 (* line 15 *)
  | DetectedOther (system : string). (* line 18 *)

Definition build_dir : string := "C:\build\pawcounter".
Definition core_dir : string := "C:\platformio\pawcounter".

(** [env.Replace(BUILD_DIR=..., CORE_DIR=...)] *)
Definition replace_dirs (env : gmap string string) : gmap string string :=
  <[ "CORE_DIR" := core_dir ]> (<[ "BUILD_DIR" := build_dir ]> env).

Definition detect_os (system : string) (env : gmap string string)
    : gmap string string * Message :=
  if String.eqb system "Windows" then (replace_dirs env, DetectedWindows)
  else (env, DetectedOther system).

End DetectOs.

(** A computation that returns, runs no command and leaves the disk alone. *)
Definition read_only {A} (m : M A) : Prop :=
  forall w, exists a w',
    m w = (Return a, w') /\ fs w' = fs w /\ spawned w' = spawned w.

Definition harmless {A} (m : Script.Act A) : Prop :=
  forall s, exists a s',
    m s = (Script.Done a, s') /\
    fs (Script.world s') = fs (Script.world s) /\
    spawned (Script.world s') = spawned (Script.world s).

(** Strings made of white space only. *)
Fixpoint all_space (s : string) : bool :=
  match s with
  | String c r => PyStr.isspace c && all_space r
  | EmptyString => true
  end.

(** The words y and yes in every mix of letter cases. *)
Definition yes_words : list string :=
  [ "y"; "Y";
    "yes"; "yeS"; "yEs"; "yES"; "Yes"; "YeS"; "YEs"; "YES" ].

(** What [lower_char] must satisfy on the letters of y and yes, checked on
    all 256 characters. *)
Definition lower_char_facts (c : ascii) : bool :=
  (if Ascii.eqb (PyStr.lower_char c) "y"
   then Ascii.eqb c "y" || Ascii.eqb c "Y" else true) &&
  (if Ascii.eqb (PyStr.lower_char c) "e"
   then Ascii.eqb c "e" || Ascii.eqb c "E" else true) &&
  (if Ascii.eqb (PyStr.lower_char c) "s"
   then Ascii.eqb c "s" || Ascii.eqb c "S" else true).

(** More concrete tools and worlds, for the examples. *)
Module MoreExamples.

(** A tool that exits with code 1 and an error message. *)
Definition failing_tool (history : list (list string)) (fs : gmap string N)
    (cmd : list string) (timeout : Z) : Regenerate.RunResult * gmap string N :=
  (Regenerate.Completed (Regenerate.mkCompleted 1 "" "boom"), fs).

(** A session that starts in the given world with nothing printed. *)
Definition session_of (w : World) : Script.Session := Script.mkSession w [].

(** A construction environment with one variable. *)
Definition some_env : gmap string string := {[ "CC" := "gcc" ]}.

End MoreExamples.

(** ** Checks on single characters *)

Definition hex_char_facts (c : ascii) : bool :=
  match hex_digit c with
  | Some v =>
      (digit_value c =? v) && (0 <=? v) && (v <? 16) &&
      negb (is_space c) &&
      negb (Ascii.eqb c "_") && negb (Ascii.eqb c "+") &&
      negb (Ascii.eqb c "-") && negb (Ascii.eqb c ",") &&
      negb (Ascii.eqb c "x") && negb (Ascii.eqb c "X") &&
      match hex_digit (lower c) with
      | Some v' => v' =? v
      | None => false
      end
  | None => negb (digit_value c <? 16)
  end.


(** ** Strings: [split], [join] and [contains] *)

#[local] Arguments String.append !_ _ / : simpl nomatch.

Lemma contains_app (c : ascii) (a b : string) :
  contains c (a +:+ b) = contains c a || contains c b.
Proof.
  induction a as [|d a IH]; simpl; [reflexivity|].
  rewrite IH. now rewrite orb_assoc.
Qed.

Lemma split_not_nil (sep : ascii) (s : string) : split sep s <> [].
Proof.
  induction s as [|c s IH]; simpl; [discriminate|].
  destruct (Ascii.eqb c sep); [discriminate|].
  destruct (split sep s); [contradiction | discriminate].
Qed.

Lemma split_no_sep (sep : ascii) (s : string) :
  contains sep s = false -> split sep s = [s].
Proof.
  induction s as [|c s IH]; simpl; [reflexivity|].
  intros H. apply orb_false_elim in H as [Hc Hs].
  rewrite Hc, (IH Hs). reflexivity.
Qed.

Lemma split_app (sep : ascii) (a b : string) :
  contains sep a = false ->
  split sep (a +:+ String sep b) = a :: split sep b.
Proof.
  induction a as [|c a IH]; simpl.
  - intros _. now rewrite Ascii.eqb_refl.
  - intros H. apply orb_false_elim in H as [Hc Ha].
    rewrite Hc, (IH Ha). reflexivity.
Qed.

Lemma split_join (sep : ascii) (ts : list string) :
  ts <> [] ->
  Forall (fun t => contains sep t = false) ts ->
  split sep (join (String sep "") ts) = ts.
Proof.
  induction ts as [|t ts IH]; [congruence|].
  intros _ Hall. inversion Hall as [|? ? Ht Hts]; subst.
  destruct ts as [|t' ts].
  - simpl. now apply split_no_sep.
  - change (join (String sep "") (t :: t' :: ts))
      with (t +:+ String sep (join (String sep "") (t' :: ts))).
    rewrite split_app by assumption.
    rewrite IH by (assumption || discriminate). reflexivity.
Qed.



(** ** Characters

    Facts about single characters are checked on all 256 of them. *)

Lemma hex_char_facts_all (c : ascii) : hex_char_facts c = true.
Proof. destruct c as [[] [] [] [] [] [] [] []]; vm_compute; reflexivity. Qed.

Ltac hex_facts c H :=
  let F := fresh "F" in
  pose proof (hex_char_facts_all c) as F;
  unfold hex_char_facts in F; rewrite H in F;
  repeat (apply andb_true_iff in F as [F ?]).

Lemma is_hex_Some (c : ascii) : is_hex c = true -> exists v, hex_digit c = Some v.
Proof. unfold is_hex. destruct (hex_digit c) as [v|]; [eauto | discriminate]. Qed.

Lemma hex_digit_value (c : ascii) (v : Z) :
  hex_digit c = Some v -> digit_value c = v /\ 0 <= v < 16.
Proof. intros H. hex_facts c H. lia. Qed.

Lemma hex_not_special (c : ascii) :
  is_hex c = true ->
  is_space c = false /\ Ascii.eqb c "_" = false /\ Ascii.eqb c "+" = false /\
  Ascii.eqb c "-" = false /\ Ascii.eqb c "," = false /\
  Ascii.eqb c "x" = false /\ Ascii.eqb c "X" = false.
Proof.
  intros H. apply is_hex_Some in H as [v H]. hex_facts c H.
  repeat match goal with
         | K : negb _ = true |- _ => apply negb_true_iff in K
         end.
  repeat split; assumption.
Qed.

Lemma hex_digit_lower (c : ascii) :
  is_hex c = true -> hex_digit (lower c) = hex_digit c.
Proof.
  intros H. apply is_hex_Some in H as [v H]. hex_facts c H.
  destruct (hex_digit (lower c)) as [v'|]; [|discriminate].
  rewrite H. f_equal. lia.
Qed.

Lemma digit_is_hex (c : ascii) : (digit_value c <? 16) = true -> is_hex c = true.
Proof.
  intros H. pose proof (hex_char_facts_all c) as F.
  unfold hex_char_facts, is_hex in *.
  destruct (hex_digit c); [reflexivity|].
  rewrite H in F. discriminate.
Qed.

(** ** [int16] on hex literals *)

Lemma scan_all_hex (ds : string) (acc : Z) :
  all_hex ds = true ->
  scan_digits false acc ds = Some (hex_value_from acc ds, "").
Proof.
  revert acc. induction ds as [|c ds IH]; intros acc H; simpl in *.
  - reflexivity.
  - apply andb_true_iff in H as [Hc Hds].
    destruct (hex_not_special c Hc) as (_ & Hus & _).
    destruct (is_hex_Some c Hc) as [v Hv].
    destruct (hex_digit_value c v Hv) as [Hdv Hrange].
    rewrite Hus, Hdv, Hv. simpl.
    replace (v <? 16) with true by (symmetry; apply Z.ltb_lt; lia).
    rewrite (Z.mul_comm acc 16). now apply IH.
Qed.

Lemma hex_value_from_nonneg (ds : string) (acc : Z) :
  0 <= acc -> all_hex ds = true -> 0 <= hex_value_from acc ds.
Proof.
  revert acc. induction ds as [|c ds IH]; intros acc Hacc H; simpl in *.
  - assumption.
  - apply andb_true_iff in H as [Hc Hds].
    destruct (is_hex_Some c Hc) as [v Hv].
    destruct (hex_digit_value c v Hv) as [_ Hrange].
    rewrite Hv. simpl. apply IH; [lia | assumption].
Qed.

Lemma hex_value_nonneg (ds : string) : hex_digits ds -> 0 <= hex_value ds.
Proof. intros [_ H]. apply hex_value_from_nonneg; [lia | assumption]. Qed.

Lemma int16_digits (ds : string) :
  hex_digits ds -> int16 ds = Return (hex_value ds).
Proof.
  intros [Hne Hall]. destruct ds as [|c r]; [congruence|]. clear Hne.
  pose proof Hall as Hall'. simpl in Hall'.
  apply andb_true_iff in Hall' as [Hc Hr].
  destruct (hex_not_special c Hc) as (Hsp & Hus & Hplus & Hminus & _ & Hx & HX).
  assert (Hstrip : strip_0x (String c r) = String c r).
  { destruct r as [|c1 r1]; [reflexivity|]. simpl in Hr.
    apply andb_true_iff in Hr as [Hc1 _].
    destruct (hex_not_special c1 Hc1) as (_ & _ & _ & _ & _ & Hx1 & HX1).
    simpl. rewrite Hx1, HX1. simpl. now rewrite andb_false_r. }
  unfold int16. simpl skip_space. rewrite Hsp.
  unfold strip_sign. rewrite Hplus, Hminus, Hstrip.
  unfold starts_with_underscore. rewrite Hus.
  rewrite (scan_all_hex _ 0 Hall). unfold hex_value.
  generalize (hex_value_from 0 (String c r)) as hv. intros hv. simpl.
  now destruct hv.
Qed.

Lemma int16_prefixed (x : ascii) (ds : string) :
  x = "x"%char \/ x = "X"%char ->
  hex_digits ds -> int16 (String "0" (String x ds)) = Return (hex_value ds).
Proof.
  intros Hx [Hne Hall]. destruct ds as [|c r]; [congruence|]. clear Hne.
  pose proof Hall as Hall'. simpl in Hall'.
  apply andb_true_iff in Hall' as [Hc Hr].
  destruct (hex_not_special c Hc) as (_ & Hus & _).
  assert (Hstrip : strip_0x (String "0" (String x (String c r))) = String c r).
  { simpl. rewrite Hus. destruct Hx; subst x; reflexivity. }
  unfold int16.
  replace (skip_space (String "0" (String x (String c r))))
    with (String "0" (String x (String c r))) by reflexivity.
  replace (strip_sign (String "0" (String x (String c r))))
    with (1, String "0" (String x (String c r))) by reflexivity.
  rewrite Hstrip. unfold starts_with_underscore. rewrite Hus.
  rewrite (scan_all_hex _ 0 Hall). unfold hex_value.
  generalize (hex_value_from 0 (String c r)) as hv. intros hv. simpl.
  now destruct hv.
Qed.

Lemma int16_literal (s : string) (v : Z) : literal s v -> int16 s = Return v.
Proof.
  intros [p ds [-> | [-> | ->]] Hds].
  - now apply int16_digits.
  - apply int16_prefixed; auto.
  - apply int16_prefixed; auto.
Qed.

(** ** What a text that [int16] accepts can contain

    Only white space, a sign, hexadecimal digits, the letter of the prefix
    and underscores: any other character makes [int16] raise. *)

Lemma skip_space_chars (s : string) :
  (forall c, contains c (skip_space s) = true -> literal_char c = true) ->
  forall c, contains c s = true -> literal_char c = true.
Proof.
  induction s as [|d s IH]; intros H c Hc; [discriminate|].
  simpl in H. destruct (is_space d) eqn:Hd; [|now apply H].
  simpl in Hc. apply orb_true_iff in Hc as [Hc | Hc].
  - apply Ascii.eqb_eq in Hc. subst c. unfold literal_char. now rewrite Hd.
  - now apply IH.
Qed.

Lemma skip_space_empty (s : string) :
  skip_space s = "" -> forall c, contains c s = true -> literal_char c = true.
Proof.
  intros H. apply skip_space_chars. rewrite H. discriminate.
Qed.

Lemma scan_digits_chars (s rest : string) (prev : bool) (acc v : Z) :
  scan_digits prev acc s = Some (v, rest) ->
  (forall c, contains c rest = true -> literal_char c = true) ->
  forall c, contains c s = true -> literal_char c = true.
Proof.
  revert prev acc. induction s as [|d s IH]; intros prev acc Hscan Hrest c Hc.
  - discriminate.
  - simpl in Hscan. destruct (Ascii.eqb d "_") eqn:Hus.
    + destruct prev; [discriminate|].
      simpl in Hc. apply orb_true_iff in Hc as [Hc | Hc].
      * apply Ascii.eqb_eq in Hc. subst c. unfold literal_char.
        rewrite Hus. now rewrite !orb_true_r.
      * eapply IH; eassumption.
    + destruct (digit_value d <? 16) eqn:Hd.
      * simpl in Hc. apply orb_true_iff in Hc as [Hc | Hc].
        -- apply Ascii.eqb_eq in Hc. subst c. unfold literal_char.
           rewrite (digit_is_hex d Hd). now rewrite orb_true_r.
        -- eapply IH; eassumption.
      * destruct prev; [discriminate|]. injection Hscan as _ <-.
        now apply Hrest.
Qed.

Lemma strip_sign_chars (s : string) :
  (forall c, contains c (snd (strip_sign s)) = true -> literal_char c = true) ->
  forall c, contains c s = true -> literal_char c = true.
Proof.
  destruct s as [|d s]; [auto|]. unfold strip_sign.
  destruct (Ascii.eqb d "+") eqn:Hplus; [|destruct (Ascii.eqb d "-") eqn:Hminus];
    simpl; intros H c Hc; auto;
    apply orb_true_iff in Hc as [Hc | Hc]; auto;
    apply Ascii.eqb_eq in Hc; subst c; unfold literal_char;
    rewrite ?Hplus, ?Hminus; now rewrite ?orb_true_r.
Qed.

Lemma strip_0x_chars (s : string) :
  (forall c, contains c (strip_0x s) = true -> literal_char c = true) ->
  forall c, contains c s = true -> literal_char c = true.
Proof.
  destruct s as [|c0 [|c1 r]]; auto. unfold strip_0x.
  destruct (Ascii.eqb c0 "0" && (Ascii.eqb c1 "x" || Ascii.eqb c1 "X")) eqn:Hp; auto.
  apply andb_true_iff in Hp as [H0 Hx]. apply Ascii.eqb_eq in H0. subst c0.
  assert (Hc1 : literal_char c1 = true).
  { unfold literal_char. apply orb_true_iff in Hx as [-> | ->];
      now rewrite ?orb_true_r. }
  intros H c Hc. cbn [contains] in Hc.
  apply orb_true_iff in Hc as [Hc | Hc];
    [apply Ascii.eqb_eq in Hc; now subst c|].
  apply orb_true_iff in Hc as [Hc | Hc];
    [apply Ascii.eqb_eq in Hc; now subst c|].
  destruct r as [|c2 r']; [discriminate|].
  destruct (Ascii.eqb c2 "_") eqn:Hus; [|now apply H].
  cbn [contains] in Hc. apply orb_true_iff in Hc as [Hc | Hc]; [|now apply H].
  apply Ascii.eqb_eq in Hc. subst c. unfold literal_char.
  rewrite Hus. now rewrite !orb_true_r.
Qed.

Lemma valid_literal_chars (s : string) :
  valid_literal s -> forall c, contains c s = true -> literal_char c = true.
Proof.
  intros [v Hv]. unfold int16 in Hv.
  apply skip_space_chars, strip_sign_chars.
  destruct (strip_sign (skip_space s)) as [sign s1]. simpl.
  apply strip_0x_chars.
  destruct (starts_with_underscore (strip_0x s1)); [discriminate|].
  destruct (scan_digits false 0 (strip_0x s1)) as [[v' rest]|] eqn:Hscan;
    [|discriminate].
  destruct (Nat.eqb (String.length rest) (String.length (strip_0x s1)));
    [discriminate|].
  destruct (skip_space rest) eqn:Hrest; [|discriminate].
  eapply scan_digits_chars; [eassumption|].
  now apply skip_space_empty.
Qed.

(** ** The decoding loop *)

Import TestZpix.

Lemma all_hex_no_sep (c : ascii) (ds : string) :
  c = "-"%char \/ c = ","%char ->
  all_hex ds = true -> contains c ds = false.
Proof.
  intros Hc. induction ds as [|d ds IH]; simpl; [reflexivity|].
  intros H. apply andb_true_iff in H as [Hd Hds].
  destruct (hex_not_special d Hd) as (_ & _ & _ & Hminus & Hcomma & _).
  rewrite (IH Hds). destruct Hc; subst c; [now rewrite Hminus | now rewrite Hcomma].
Qed.

Lemma literal_no_sep (c : ascii) (s : string) (v : Z) :
  c = "-"%char \/ c = ","%char ->
  literal s v -> contains c s = false.
Proof.
  intros Hc [p ds Hp [_ Hds]]. rewrite contains_app.
  rewrite (all_hex_no_sep c ds Hc Hds).
  destruct Hc; subst c; destruct Hp as [-> | [-> | ->]]; reflexivity.
Qed.

Lemma literal_nonneg (s : string) (v : Z) : literal s v -> 0 <= v.
Proof. intros [p ds _ Hds]. now apply hex_value_nonneg. Qed.

Lemma range_seqZ (a b : Z) : range a b = seqZ a (b - a).
Proof.
  unfold range, seqZ. apply map_ext. intros k. lia.
Qed.

Lemma append_chars_ok (l chars : list Z) :
  Forall code_point l -> append_chars l chars = Return (chars ++ l).
Proof.
  intros H. revert chars. induction H as [|i l Hi _ IH]; intros chars; simpl.
  - now rewrite app_nil_r.
  - unfold chr. destruct Hi as [H0 H1].
    replace (0 <=? i) with true by (symmetry; apply Z.leb_le; lia).
    replace (i <? 1114112) with true by (symmetry; apply Z.ltb_lt; lia).
    simpl. rewrite IH. now rewrite <- app_assoc.
Qed.

Lemma interval_text (a b : string) :
  contains "-" a = false -> contains "-" b = false ->
  contains "-" (a +:+ "-" +:+ b) = true /\
  split "-" (a +:+ "-" +:+ b) = [a; b].
Proof.
  intros Ha Hb. split.
  - rewrite contains_app. simpl. now rewrite orb_true_r.
  - change (a +:+ "-" +:+ b) with (a +:+ String "-" b).
    rewrite split_app by assumption. now rewrite split_no_sep.
Qed.

Lemma decode_token_single (s : string) (v : Z) (chars : list Z) :
  literal s v -> v < 1114112 ->
  decode_token s chars = Return (chars ++ [v]).
Proof.
  intros Hs Hv. unfold decode_token.
  rewrite (literal_no_sep "-" s v (or_introl eq_refl) Hs).
  rewrite (int16_literal s v Hs). simpl.
  pose proof (literal_nonneg s v Hs) as H0. unfold chr.
  replace (0 <=? v) with true by (symmetry; apply Z.leb_le; lia).
  replace (v <? 1114112) with true by (symmetry; apply Z.ltb_lt; lia).
  reflexivity.
Qed.

Lemma decode_token_interval (a b : string) (lo hi : Z) (chars : list Z) :
  literal a lo -> literal b hi -> hi < 1114112 ->
  decode_token (a +:+ "-" +:+ b) chars = Return (chars ++ seqZ lo (hi - lo + 1)).
Proof.
  intros Ha Hb Hhi. unfold decode_token.
  pose proof (literal_no_sep "-" a lo (or_introl eq_refl) Ha) as Na.
  pose proof (literal_no_sep "-" b hi (or_introl eq_refl) Hb) as Nb.
  destruct (interval_text a b Na Nb) as [-> ->].
  rewrite (int16_literal a lo Ha), (int16_literal b hi Hb). simpl.
  rewrite range_seqZ. replace (hi + 1 - lo) with (hi - lo + 1) by lia.
  apply append_chars_ok. apply Forall_seqZ. intros m Hm.
  pose proof (literal_nonneg a lo Ha). unfold code_point. lia.
Qed.

Lemma decode_token_denotes (s : string) (t : Token) (chars : list Z) :
  denotes s t -> well_formed t ->
  decode_token s chars = Return (chars ++ expand t).
Proof.
  intros [s' v Hs | a b lo hi Ha Hb] Hwf; simpl in *.
  - apply decode_token_single; [assumption | unfold code_point in Hwf; lia].
  - apply decode_token_interval; try assumption.
    unfold code_point in Hwf. lia.
Qed.

Lemma denotes_no_comma (s : string) (t : Token) :
  denotes s t -> contains "," s = false.
Proof.
  intros [s' v Hs | a b lo hi Ha Hb].
  - exact (literal_no_sep "," s' v (or_intror eq_refl) Hs).
  - rewrite !contains_app.
    rewrite (literal_no_sep "," a lo (or_intror eq_refl) Ha).
    rewrite (literal_no_sep "," b hi (or_intror eq_refl) Hb).
    reflexivity.
Qed.

Lemma decode_tokens_denotes (ss : list string) (toks : list Token) (chars : list Z) :
  Forall2 denotes ss toks -> Forall well_formed toks ->
  decode_tokens ss chars = Return (chars ++ spec_decode toks).
Proof.
  intros H. revert chars. induction H as [|s t ss toks Hst _ IH]; intros chars Hwf.
  - simpl. now rewrite app_nil_r.
  - pose proof (Forall_inv Hwf) as Ht. pose proof (Forall_inv_tail Hwf) as Hts.
    simpl. rewrite (decode_token_denotes s t chars Hst Ht). simpl.
    rewrite (IH _ Hts). unfold spec_decode. simpl. now rewrite <- app_assoc.
Qed.

(** Ascending, consecutive, [hi - lo + 1] values from [lo] to [hi]. *)
Lemma expand_interval (lo hi : Z) :
  lo <= hi ->
  length (expand (Interval lo hi)) = Z.to_nat (hi - lo + 1) /\
  (forall i : nat, Z.of_nat i <= hi - lo ->
     expand (Interval lo hi) !! i = Some (lo + Z.of_nat i)).
Proof.
  intros H. simpl. split.
  - apply length_seqZ.
  - intros i Hi. apply lookup_seqZ_lt. lia.
Qed.

(** ** When decoding fails *)

Lemma chr_Return (i c : Z) : chr i = Return c -> code_point i /\ c = i.
Proof.
  unfold chr, code_point.
  destruct (0 <=? i) eqn:H0; destruct (i <? 1114112) eqn:H1; simpl;
    try (destruct ((-2147483648 <=? i) && (i <=? 2147483647)); discriminate).
  intros [= <-]. apply Z.leb_le in H0. apply Z.ltb_lt in H1. lia.
Qed.


Lemma append_chars_Return (l chars r : list Z) :
  append_chars l chars = Return r -> Forall code_point l.
Proof.
  revert chars. induction l as [|i l IH]; intros chars H; [constructor|].
  simpl in H. destruct (chr i) as [c|e] eqn:Hc; [|discriminate].
  simpl in H. constructor.
  - now apply chr_Return in Hc.
  - now apply IH in H.
Qed.



(** The two sides of an interval token are determined by its text. *)
Lemma interval_unique (a b a' b' : string) :
  contains "-" a = false -> contains "-" b = false ->
  contains "-" a' = false -> contains "-" b' = false ->
  a +:+ "-" +:+ b = a' +:+ "-" +:+ b' -> a = a' /\ b = b'.
Proof.
  intros Ha Hb Ha' Hb' H.
  destruct (interval_text a b Ha Hb) as [_ Hs].
  destruct (interval_text a' b' Ha' Hb') as [_ Hs'].
  rewrite H, Hs' in Hs. now injection Hs as -> ->.
Qed.




(** An interval whose bounds are in the wrong order adds nothing and is no
    error. *)
Lemma decode_token_reversed (a b : string) (lo hi : Z) (chars : list Z) :
  contains "-" a = false -> contains "-" b = false ->
  int16 a = Return lo -> int16 b = Return hi -> hi < lo ->
  decode_token (a +:+ "-" +:+ b) chars = Return chars.
Proof.
  intros Ha Hb Hlo Hhi Hlt. unfold decode_token.
  destruct (interval_text a b Ha Hb) as [-> ->].
  rewrite Hlo, Hhi. simpl. unfold range.
  replace (Z.to_nat (hi + 1 - lo)) with 0%nat by lia. reflexivity.
Qed.

(** ** Prefix and letter case of hex literals *)

Lemma hex_value_lowercase (ds : string) (acc : Z) :
  all_hex ds = true -> hex_value_from acc (lowercase ds) = hex_value_from acc ds.
Proof.
  revert acc. induction ds as [|c ds IH]; intros acc H; simpl in *; [reflexivity|].
  apply andb_true_iff in H as [Hc Hds].
  rewrite (hex_digit_lower c Hc). now apply IH.
Qed.

Lemma same_literal_value (a b : string) :
  same_literal a b -> exists v, literal a v /\ literal b v.
Proof.
  intros [p q ds ds' Hp Hq Hds Hds' Hcase].
  exists (hex_value ds). split; [now constructor|].
  replace (hex_value ds) with (hex_value ds'); [now constructor|].
  unfold hex_value.
  rewrite <- (hex_value_lowercase ds 0) by apply Hds.
  rewrite <- (hex_value_lowercase ds' 0) by apply Hds'.
  now rewrite Hcase.
Qed.

Lemma same_token_decode (t1 t2 : string) (chars : list Z) :
  same_token t1 t2 -> decode_token t1 chars = decode_token t2 chars.
Proof.
  intros [a b Hab | a1 a2 b1 b2 H1 H2].
  - apply same_literal_value in Hab as (v & Ha & Hb). unfold decode_token.
    rewrite (literal_no_sep "-" a v (or_introl eq_refl) Ha).
    rewrite (literal_no_sep "-" b v (or_introl eq_refl) Hb).
    now rewrite (int16_literal a v Ha), (int16_literal b v Hb).
  - apply same_literal_value in H1 as (lo & Ha1 & Hb1).
    apply same_literal_value in H2 as (hi & Ha2 & Hb2).
    unfold decode_token.
    destruct (interval_text a1 a2) as [-> ->];
      try (eapply (literal_no_sep "-"); [now left | eassumption]).
    destruct (interval_text b1 b2) as [-> ->];
      try (eapply (literal_no_sep "-"); [now left | eassumption]).
    now rewrite (int16_literal _ _ Ha1), (int16_literal _ _ Ha2),
      (int16_literal _ _ Hb1), (int16_literal _ _ Hb2).
Qed.

Lemma same_token_no_comma (t1 t2 : string) :
  same_token t1 t2 -> contains "," t1 = false /\ contains "," t2 = false.
Proof.
  intros [a b Hab | a1 a2 b1 b2 H1 H2].
  - apply same_literal_value in Hab as (v & Ha & Hb).
    split; eapply (literal_no_sep ","); try eassumption; now right.
  - apply same_literal_value in H1 as (lo & Ha1 & Hb1).
    apply same_literal_value in H2 as (hi & Ha2 & Hb2).
    rewrite !contains_app.
    rewrite (literal_no_sep "," a1 lo), (literal_no_sep "," a2 hi),
      (literal_no_sep "," b1 lo), (literal_no_sep "," b2 hi);
      try assumption; try (now right).
    split; reflexivity.
Qed.

Lemma same_tokens_decode (ts1 ts2 : list string) (chars : list Z) :
  Forall2 same_token ts1 ts2 -> decode_tokens ts1 chars = decode_tokens ts2 chars.
Proof.
  intros H. revert chars. induction H as [|t1 t2 ts1 ts2 Ht _ IH]; intros chars.
  - reflexivity.
  - simpl. rewrite (same_token_decode t1 t2 chars Ht).
    destruct (decode_token t2 chars); simpl; [apply IH | reflexivity].
Qed.

(** ** Theorems about the range codec *)



(** Expressions that make the loop raise: a digit that is not hexadecimal,
    an interval with an empty side, two hyphens in one token, an empty
    token, a value above the last code point. *)
Example decode_raises_examples :
  decode "0x30,0xZZ" = Raise ValueError /\
  decode "0x30-" = Raise ValueError /\
  decode "1-2-3" = Raise ValueError /\
  decode "" = Raise ValueError /\
  decode "0x30,,0x31" = Raise ValueError /\
  decode "110000" = Raise ValueError /\
  decode "100000000" = Raise OverflowError.
Proof. repeat split; reflexivity. Qed.

(** The range of the scripts decodes to its 35 characters. *)
Example decode_range_hex :
  decode range_hex =
    Return [ 48; 49; 50; 51; 52; 53; 54; 55; 56; 57; 43; 45; 42; 47; 61; 46;
             37; 40; 41; 67; 69; 73; 78; 79; 82; 114; 111; 101; 116; 97; 110;
             32; 44; 165; 36 ].
Proof. reflexivity. Qed.

(** C4.  For a non-empty list of token texts, each a hex literal or two hex
    literals around a hyphen, whose values are code points and whose
    intervals have lo <= hi, decoding the comma-joined expression returns
    the concatenation, in token order, of one part per token: the
    [hi - lo + 1] consecutive values from [lo] up to [hi] for an interval,
    the value alone for a single token. *)
Theorem decode_expands_tokens (ss : list string) (toks : list Token) :
  ss <> [] ->
  Forall2 denotes ss toks ->
  Forall well_formed toks ->
  decode (join "," ss) = Return (spec_decode toks) /\
  Forall (fun t =>
            match t with
            | Interval lo hi =>
                length (expand t) = Z.to_nat (hi - lo + 1) /\
                forall i : nat, Z.of_nat i <= hi - lo ->
                  expand t !! i = Some (lo + Z.of_nat i)
            | Single v => expand t = [v]
            end) toks.
Proof.
  intros Hne Hden Hwf. split.
  - unfold decode. rewrite split_join.
    + now rewrite (decode_tokens_denotes ss toks [] Hden Hwf).
    + assumption.
    + clear Hne Hwf. induction Hden as [|s t ss toks Hst _ IH]; constructor.
      * now apply denotes_no_comma in Hst.
      * assumption.
  - apply Forall_forall. intros t Ht.
    rewrite Forall_forall in Hwf. specialize (Hwf t Ht).
    destruct t as [lo hi | v]; [|reflexivity].
    apply expand_interval. simpl in Hwf. lia.
Qed.

(** C4 at the expression 0x30-0x33,0x2B: the five values of 0 1 2 3 +. *)
Lemma decode_expands_tokens_witness :
  (["0x30-0x33"; "0x2B"] <> [] /\
   Forall2 denotes ["0x30-0x33"; "0x2B"] [Interval 48 51; Single 43] /\
   Forall well_formed [Interval 48 51; Single 43]) /\
  decode "0x30-0x33,0x2B" = Return [48; 49; 50; 51; 43].
Proof.
  assert (Hlit : forall ds : string, all_hex ds = true -> ds <> "" ->
                   literal ("0x" +:+ ds) (hex_value ds)).
  { intros ds Hall Hne. constructor; [right; left; reflexivity | split; assumption]. }
  assert (H1 : ["0x30-0x33"; "0x2B"] <> []) by discriminate.
  assert (H2 : Forall2 denotes ["0x30-0x33"; "0x2B"] [Interval 48 51; Single 43]).
  { constructor; [|constructor; [|constructor]].
    - exact (denotes_interval _ _ _ _
               (Hlit "30" eq_refl ltac:(discriminate))
               (Hlit "33" eq_refl ltac:(discriminate))).
    - exact (denotes_single _ _ (Hlit "2B" eq_refl ltac:(discriminate))). }
  assert (H3 : Forall well_formed [Interval 48 51; Single 43]).
  { repeat constructor; unfold code_point; simpl; lia. }
  split; [auto|].
  exact (proj1 (decode_expands_tokens _ _ H1 H2 H3)).
Defined.

(** Two hex literals that differ only in prefix and letter case are read by
    [int16] as the same integer. *)
Lemma same_literal_int16 (a b : string) :
  same_literal a b -> exists v, int16 a = Return v /\ int16 b = Return v.
Proof.
  intros Hab. apply same_literal_value in Hab as (v & Ha & Hb).
  exists v. split; now apply int16_literal.
Qed.

(** Expressions whose tokens differ only in that way have the same outcome,
    also when decoding fails. *)
Lemma same_expressions_decode (ts1 ts2 : list string) :
  Forall2 same_token ts1 ts2 ->
  decode (join "," ts1) = decode (join "," ts2).
Proof.
  intros Hts. destruct Hts as [|t1 t2 ts1 ts2 Ht Hts]; [reflexivity|].
  assert (Hall : Forall2 same_token (t1 :: ts1) (t2 :: ts2)) by now constructor.
  unfold decode. rewrite !split_join; try discriminate.
  - now apply same_tokens_decode.
  - clear Ht Hts. induction Hall as [|x y xs ys Hxy _ IH]; constructor.
    + now apply same_token_no_comma in Hxy.
    + assumption.
  - clear Ht Hts. induction Hall as [|x y xs ys Hxy _ IH]; constructor.
    + now apply same_token_no_comma in Hxy.
    + assumption.
Qed.

Lemma literal_value_unique (s : string) (v v' : Z) :
  literal s v -> literal s v' -> v = v'.
Proof.
  intros H H'. apply int16_literal in H, H'. congruence.
Qed.

(** A text that differs from a token's text only in prefix and letter case
    is the same token. *)
Lemma same_token_denotes (t1 t2 : string) (tok : Token) :
  same_token t1 t2 -> denotes t1 tok -> denotes t2 tok.
Proof.
  intros [a b Hab | a1 a2 b1 b2 H1 H2] Hden.
  - apply same_literal_value in Hab as (v & Ha & Hb).
    inversion Hden as [s w Hs | x y lo hi Hx Hy Heq]; subst.
    + rewrite (literal_value_unique a w v Hs Ha). now constructor.
    + pose proof (literal_no_sep "-" _ v (or_introl eq_refl) Ha) as Hno.
      destruct (interval_text x y) as [Hyes _];
        try (eapply (literal_no_sep "-"); [now left | eassumption]).
      congruence.
  - apply same_literal_value in H1 as (lo & Ha1 & Hb1).
    apply same_literal_value in H2 as (hi & Ha2 & Hb2).
    assert (Na1 := literal_no_sep "-" a1 lo (or_introl eq_refl) Ha1).
    assert (Na2 := literal_no_sep "-" a2 hi (or_introl eq_refl) Ha2).
    inversion Hden as [s w Hs | x y lo' hi' Hx Hy Heq]; subst.
    + pose proof (literal_no_sep "-" _ w (or_introl eq_refl) Hs) as Hno.
      destruct (interval_text a1 a2 Na1 Na2) as [Hyes _]. congruence.
    + assert (Nx := literal_no_sep "-" x lo' (or_introl eq_refl) Hx).
      assert (Ny := literal_no_sep "-" y hi' (or_introl eq_refl) Hy).
      destruct (interval_unique x y a1 a2 Nx Ny Na1 Na2 Heq) as [-> ->].
      rewrite (literal_value_unique a1 lo' lo Hx Ha1).
      rewrite (literal_value_unique a2 hi' hi Hy Ha2).
      now constructor.
Qed.

Lemma denotes_decode (ss : list string) (toks : list Token) :
  ss <> [] ->
  Forall2 denotes ss toks ->
  Forall well_formed toks ->
  decode (join "," ss) = Return (spec_decode toks).
Proof.
  intros Hne Hden Hwf. unfold decode. rewrite split_join.
  - now rewrite (decode_tokens_denotes ss toks [] Hden Hwf).
  - assumption.
  - clear Hne Hwf. induction Hden as [|s t ss toks Hst _ IH]; constructor.
    + now apply denotes_no_comma in Hst.
    + assumption.
Qed.

(** C10.  Take a well-formed expression: at least one token, each a hex
    literal or two hex literals around a hyphen, with code points as values
    and lo <= hi.  Any expression whose tokens differ from its tokens only in
    having or lacking the [0x]/[0X] prefix and in the case of the digits
    denotes the same tokens, and decoding either expression returns the same
    sequence: the values of the tokens, read in base sixteen, in token
    order. *)
Theorem decode_ignores_prefix_and_case
    (ts1 ts2 : list string) (toks : list Token) :
  ts1 <> [] ->
  Forall2 same_token ts1 ts2 ->
  Forall2 denotes ts1 toks ->
  Forall well_formed toks ->
  Forall2 denotes ts2 toks /\
  decode (join "," ts1) = Return (spec_decode toks) /\
  decode (join "," ts2) = Return (spec_decode toks).
Proof.
  intros Hne Hsame Hden Hwf.
  assert (Hden2 : Forall2 denotes ts2 toks).
  { clear Hne Hwf. revert toks Hden.
    induction Hsame as [|t1 t2 ts1 ts2 Ht _ IH]; intros toks Hden.
    - inversion Hden. constructor.
    - inversion Hden as [|? tok ? toks' Htok Hrest]; subst. constructor.
      + eapply same_token_denotes; eassumption.
      + now apply IH. }
  assert (Hne2 : ts2 <> []).
  { destruct Hsame; [contradiction | discriminate]. }
  split; [assumption|]. split; now apply denotes_decode.
Qed.

(** C10 at the expressions 30-39,2b and 0x30-0x39,0X2B: both decode to the
    digits 0 to 9 followed by the plus sign. *)
Lemma decode_ignores_prefix_and_case_witness :
  (["30-39"; "2b"] <> [] /\
   Forall2 same_token ["30-39"; "2b"] ["0x30-0x39"; "0X2B"] /\
   Forall2 denotes ["30-39"; "2b"] [Interval 48 57; Single 43] /\
   Forall well_formed [Interval 48 57; Single 43]) /\
  Forall2 denotes ["0x30-0x39"; "0X2B"] [Interval 48 57; Single 43] /\
  decode "30-39,2b" = Return [48; 49; 50; 51; 52; 53; 54; 55; 56; 57; 43] /\
  decode "0x30-0x39,0X2B" = Return [48; 49; 50; 51; 52; 53; 54; 55; 56; 57; 43].
Proof.
  assert (Hsame : forall p q ds ds' : string,
            hex_prefix p -> hex_prefix q ->
            all_hex ds = true -> ds <> "" -> all_hex ds' = true -> ds' <> "" ->
            lowercase ds = lowercase ds' -> same_literal (p +:+ ds) (q +:+ ds')).
  { intros. constructor; try split; assumption. }
  assert (Hlit : forall ds : string, all_hex ds = true -> ds <> "" ->
                   literal ("" +:+ ds) (hex_value ds)).
  { intros ds Hall Hds. constructor; [left; reflexivity | split; assumption]. }
  assert (P0 : hex_prefix "") by (left; reflexivity).
  assert (P1 : hex_prefix "0x") by (right; left; reflexivity).
  assert (P2 : hex_prefix "0X") by (right; right; reflexivity).
  assert (H0 : ["30-39"; "2b"] <> []) by discriminate.
  assert (H1 : Forall2 same_token ["30-39"; "2b"] ["0x30-0x39"; "0X2B"]).
  { constructor; [|constructor; [|constructor]].
    - exact (same_interval _ _ _ _
               (Hsame "" "0x" "30" "30" P0 P1 eq_refl ltac:(discriminate)
                  eq_refl ltac:(discriminate) eq_refl)
               (Hsame "" "0x" "39" "39" P0 P1 eq_refl ltac:(discriminate)
                  eq_refl ltac:(discriminate) eq_refl)).
    - exact (same_single _ _
               (Hsame "" "0X" "2b" "2B" P0 P2 eq_refl ltac:(discriminate)
                  eq_refl ltac:(discriminate) eq_refl)). }
  assert (H2 : Forall2 denotes ["30-39"; "2b"] [Interval 48 57; Single 43]).
  { constructor; [|constructor; [|constructor]].
    - exact (denotes_interval _ _ _ _
               (Hlit "30" eq_refl ltac:(discriminate))
               (Hlit "39" eq_refl ltac:(discriminate))).
    - exact (denotes_single _ _ (Hlit "2b" eq_refl ltac:(discriminate))). }
  assert (H3 : Forall well_formed [Interval 48 57; Single 43]).
  { repeat constructor; unfold code_point; simpl; lia. }
  split; [auto|].
  exact (decode_ignores_prefix_and_case _ _ _ H0 H1 H2 H3).
Defined.

(** ** Running [generate_font] *)

Import Regenerate.

Lemma attempt_marks_app (l1 l2 : list Line) :
  attempt_marks (l1 ++ l2) = (attempt_marks l1 + attempt_marks l2)%nat.
Proof. induction l1 as [|[] l1 IH]; simpl; auto. Qed.

Section RegenerateFacts.

Variable process :
  list (list string) -> gmap string N -> list string -> Z -> RunResult * gmap string N.

Lemma generate_font_missing (size : Z) (output_file : string) (w : World) :
  fs w !! "zpix.ttf" = None ->
  generate_font process size output_file w =
    (Return false, mkWorld (fs w) (spawned w) (printed w ++ [SourceMissing])).
Proof.
  intros H. unfold generate_font, bind, path_exists, print, ret. simpl.
  rewrite H. reflexivity.
Qed.

Lemma generate_font_run (size : Z) (output_file : string) (w : World) :
  is_Some (fs w !! "zpix.ttf") ->
  generate_font process size output_file w =
    let cmd := cmd_of size output_file in
    let r := process (spawned w) (fs w) cmd 60 in
    let c := classify size output_file (fst r) (snd r) in
    (Return (fst c),
     mkWorld (snd r) (spawned w ++ [cmd])
       (printed w ++ [Generating size; CommandLine (join " " cmd)] ++ snd c)).
Proof.
  intros [n Hn]. cbv zeta.
  unfold generate_font.
  generalize (CommandLine (join " " (cmd_of size output_file))) as line.
  generalize (cmd_of size output_file) as cmd. intros cmd line.
  unfold bind, try_except, subprocess_run, path_exists, getsize, print, ret.
  simpl. rewrite Hn. simpl.
  destruct (process (spawned w) (fs w) cmd 60) as [r fs'].
  simpl. destruct r as [p | e]; simpl.
  - destruct (returncode p =? 0); simpl.
    + destruct (fs' !! output_file) as [m|] eqn:Hout; simpl;
        rewrite ?Hout; simpl; rewrite <- !app_assoc; reflexivity.
    + rewrite <- !app_assoc; reflexivity.
  - destruct e; simpl; rewrite <- !app_assoc; reflexivity.
Qed.

(** Whatever the world, [generate_font] returns, and prints exactly one
    line that opens an attempt. *)
Lemma generate_font_returns (size : Z) (output_file : string) (w : World) :
  exists ok w',
    generate_font process size output_file w = (Return ok, w') /\
    attempt_marks (printed w') = S (attempt_marks (printed w)).
Proof.
  pose proof attempt_marks_app as Hmarks.
  destruct (fs w !! "zpix.ttf") as [n|] eqn:Hsrc.
  - rewrite generate_font_run by eauto. cbv zeta.
    eexists _, _. split; [reflexivity|]. simpl printed.
    rewrite Hmarks. simpl.
    set (r := process _ _ _ _). unfold classify.
    destruct (fst r) as [p | e].
    + destruct (returncode p =? 0); simpl; [|lia].
      destruct (snd r !! output_file); simpl; lia.
    + destruct e; simpl; lia.
  - rewrite generate_font_missing by assumption.
    eexists _, _. split; [reflexivity|]. simpl. rewrite Hmarks. simpl. lia.
Qed.

End RegenerateFacts.

(** ** Theorems about the rasterization invoker, the probe and the batch *)

Section RegenerateTheorems.

Variable process :
  list (list string) -> gmap string N -> list string -> Z -> RunResult * gmap string N.

(** C2 (as amended).  When the font source exists, [generate_font] returns
    [True] exactly when the tool completes with exit code zero, whether or
    not the output file is present afterwards; after a success it prints the
    size of the output file exactly when that file is present. *)
Theorem generate_font_success_iff_exit_zero
    (size : Z) (output_file : string) (w : World) :
  is_Some (fs w !! "zpix.ttf") ->
  let r := process (spawned w) (fs w) (cmd_of size output_file) 60 in
  let res := generate_font process size output_file w in
  (fst res = Return true <->
     exists p, fst r = Completed p /\ returncode p = 0) /\
  fs (snd res) = snd r /\
  (fst res = Return true ->
     printed (snd res) =
       printed w ++
       [Generating size; CommandLine (join " " (cmd_of size output_file));
        Generated size output_file] ++
       match snd r !! output_file with
       | Some n => [FileSizeKB (inject_Z (Z.of_N n) / inject_Z 1024)%Q]
       | None => []
       end).
Proof.
  intros Hsrc r res. subst res. rewrite generate_font_run by assumption.
  cbv zeta. fold r. simpl fst. simpl snd. simpl printed. simpl fs.
  unfold classify. destruct (fst r) as [p | e].
  - destruct (returncode p =? 0) eqn:Hrc; simpl.
    + apply Z.eqb_eq in Hrc. repeat split; eauto.
    + apply Z.eqb_neq in Hrc. repeat split; try discriminate.
      intros (p' & [= <-] & H0). contradiction.
  - destruct e; simpl; repeat split; try discriminate;
      intros (p' & [=] & _).
Qed.

(** C5.  When the font source does not exist, [generate_font] returns
    [False] after printing the missing-source line, and neither runs a
    command nor touches the file system. *)
Theorem generate_font_missing_source
    (size : Z) (output_file : string) (w : World) :
  fs w !! "zpix.ttf" = None ->
  generate_font process size output_file w =
    (Return false, mkWorld (fs w) (spawned w) (printed w ++ [SourceMissing])) /\
  spawned (snd (generate_font process size output_file w)) = spawned w.
Proof.
  intros H. rewrite generate_font_missing by assumption. split; reflexivity.
Qed.

(** C6.  When the font source exists, [generate_font] runs exactly one
    command: the tool, then the font, the size, the bit depth, the format,
    the compression switch, the output path and the range, in that order,
    the range being the literal hex-token text. *)
Theorem generate_font_command_line
    (size : Z) (output_file : string) (w : World) :
  is_Some (fs w !! "zpix.ttf") ->
  spawned (snd (generate_font process size output_file w)) =
    spawned w ++
    [[ "npx"; "lv_font_conv";
       "--font"; "zpix.ttf";
       "--size"; str size;
       "--bpp"; "4";
       "--format"; "lvgl";
       "--no-compress";
       "--output"; output_file;
       "--range";
       "0x30-0x39,0x2B,0x2D,0x2A,0x2F,0x3D,0x2E,0x25,0x28,0x29,0x43,0x45,0x49,0x4E,0x4F,0x52,0x72,0x6F,0x65,0x74,0x61,0x6E,0x20,0x2C,0xA5,0x24" ]].
Proof.
  intros Hsrc. rewrite generate_font_run by assumption. reflexivity.
Qed.

(** C7.  [check_lv_font_conv] always returns, never raises; it returns
    [True] exactly when the probed process completes, within the timeout of
    10, with exit code zero.  A process that cannot be started, times out or
    exits with another code gives [False]. *)
Theorem check_lv_font_conv_true_iff_exit_zero (w : World) :
  exists b w',
    check_lv_font_conv process w = (Return b, w') /\
    (b = true <->
       exists p,
         fst (process (spawned w) (fs w) ["npx"; "lv_font_conv"; "--help"] 10)
           = Completed p /\
         returncode p = 0).
Proof.
  unfold check_lv_font_conv, bind, try_except, subprocess_run, print, ret.
  simpl.
  destruct (process (spawned w) (fs w) ["npx"; "lv_font_conv"; "--help"] 10)
    as [[p | e] fs'] eqn:Hrun; simpl.
  - destruct (returncode p =? 0) eqn:Hrc; simpl; eexists _, _;
      (split; [reflexivity|]).
    + apply Z.eqb_eq in Hrc. split; eauto.
    + apply Z.eqb_neq in Hrc. split; [discriminate|].
      intros (p' & [= <-] & H0). contradiction.
  - eexists _, _. split; [reflexivity|].
    split; [discriminate | intros (p' & [=] & _)].
Qed.

Lemma count_generated_attempts (sizes : list (Z * string)) (n : Z) (w : World) :
  exists oks w',
    attempts process sizes w oks w' /\
    length oks = length sizes /\
    attempt_marks (printed w') = (attempt_marks (printed w) + length sizes)%nat /\
    count_generated process sizes n w = (Return (n + successes oks), w').
Proof.
  revert n w. induction sizes as [|[size output] rest IH]; intros n w.
  - exists [], w. simpl. repeat split.
    + constructor.
    + lia.
    + unfold ret. now rewrite Z.add_0_r.
  - destruct (generate_font_returns process size output w) as (ok & w1 & Hcall & Hmark).
    destruct (IH (if ok then n + 1 else n) w1) as (oks & w2 & Hatt & Hlen & Hmarks & Hcount).
    exists (ok :: oks), w2. repeat split.
    + econstructor; eassumption.
    + simpl. now rewrite Hlen.
    + rewrite Hmarks, Hmark. simpl. lia.
    + simpl. unfold bind at 1. rewrite Hcall, Hcount.
      do 2 f_equal. destruct ok; lia.
Qed.

(** C9.  A batch calls [generate_font] once for each requested size, in
    order, whatever the earlier calls returned, and no call raises; the
    summary line carries the number of calls that returned [True] and the
    number of requested sizes. *)
Theorem generate_fonts_attempts_every_size (sizes : list (Z * string)) (w : World) :
  exists oks w',
    attempts process sizes
      (mkWorld (fs w) (spawned w) (printed w ++ [BatchHeader])) oks w' /\
    length oks = length sizes /\
    attempt_marks (printed w') = (attempt_marks (printed w) + length sizes)%nat /\
    generate_fonts process sizes w =
      (Return tt,
       mkWorld (fs w') (spawned w')
         (printed w' ++ batch_footer (successes oks) (Z.of_nat (length sizes)))).
Proof.
  destruct (count_generated_attempts sizes 0
              (mkWorld (fs w) (spawned w) (printed w ++ [BatchHeader])))
    as (oks & w' & Hatt & Hlen & Hmarks & Hcount).
  exists oks, w'. repeat split; try assumption.
  - rewrite Hmarks. simpl. rewrite attempt_marks_app. simpl. lia.
  - unfold generate_fonts, bind at 1. unfold print at 1.
    unfold bind at 1. rewrite Z.add_0_l in Hcount. rewrite Hcount.
    unfold batch_footer, bind, print, ret. simpl.
    destruct (0 <? successes oks); simpl; rewrite <- ?app_assoc; reflexivity.
Qed.

End RegenerateTheorems.

Import Examples.

(** C2, the claim as stated fails: the tool exits with code 0 and writes
    nothing; [generate_font] returns [True] although the output file is
    absent. *)
Lemma generate_font_success_without_output :
  fst (generate_font silent_tool 30 out30 with_source) = Return true /\
  fs (snd (generate_font silent_tool 30 out30 with_source)) !! out30 = None.
Proof. split; vm_compute; reflexivity. Qed.

(** C2 at a tool that writes 2048 bytes and exits with code 0. *)
Lemma generate_font_success_iff_exit_zero_witness :
  is_Some (fs with_source !! "zpix.ttf") /\
  fst (generate_font writing_tool 30 out30 with_source) = Return true /\
  printed (snd (generate_font writing_tool 30 out30 with_source)) =
    [ Generating 30;
      CommandLine (join " " (cmd_of 30 out30));
      Generated 30 out30;
      FileSizeKB (inject_Z 2048 / inject_Z 1024)%Q ].
Proof.
  assert (Hsrc : is_Some (fs with_source !! "zpix.ttf")).
  { exists 1000%N. reflexivity. }
  destruct (generate_font_success_iff_exit_zero writing_tool 30 out30 with_source Hsrc)
    as (Hiff & _ & Hprinted).
  assert (Hok : fst (generate_font writing_tool 30 out30 with_source) = Return true).
  { apply Hiff. exists (mkCompleted 0 "" ""). split; reflexivity. }
  split; [exact Hsrc|]. split; [exact Hok|].
  exact (Hprinted Hok).
Defined.

(** C5 with nothing on disk. *)
Lemma generate_font_missing_source_witness :
  fs bare !! "zpix.ttf" = None /\
  generate_font silent_tool 30 out30 bare =
    (Return false, mkWorld ∅ [] [SourceMissing]) /\
  spawned (snd (generate_font silent_tool 30 out30 bare)) = [].
Proof.
  assert (Hnone : fs bare !! "zpix.ttf" = None) by reflexivity.
  split; [exact Hnone|].
  exact (generate_font_missing_source silent_tool 30 out30 bare Hnone).
Defined.

(** C6 for the 30px request. *)
Lemma generate_font_command_line_witness :
  is_Some (fs with_source !! "zpix.ttf") /\
  spawned (snd (generate_font silent_tool 30 out30 with_source)) =
    [[ "npx"; "lv_font_conv"; "--font"; "zpix.ttf"; "--size"; "30";
       "--bpp"; "4"; "--format"; "lvgl"; "--no-compress";
       "--output"; "src/fonts/lv_font_zpix_30.c";
       "--range";
       "0x30-0x39,0x2B,0x2D,0x2A,0x2F,0x3D,0x2E,0x25,0x28,0x29,0x43,0x45,0x49,0x4E,0x4F,0x52,0x72,0x6F,0x65,0x74,0x61,0x6E,0x20,0x2C,0xA5,0x24" ]].
Proof.
  assert (Hsrc : is_Some (fs with_source !! "zpix.ttf")).
  { exists 1000%N. reflexivity. }
  split; [exact Hsrc|].
  exact (generate_font_command_line silent_tool 30 out30 with_source Hsrc).
Defined.

(** The probe on a tool that cannot be started. *)
Example check_lv_font_conv_absent_tool :
  check_lv_font_conv absent_tool bare =
    (Return false,
     mkWorld ∅ [["npx"; "lv_font_conv"; "--help"]] [ToolUnavailable]).
Proof. reflexivity. Qed.

(** A batch whose second run fails: all three sizes are run, two succeed. *)
Example generate_test_fonts_flaky_tool :
  let w := snd (generate_test_fonts flaky_tool with_source) in
  spawned w = map (fun '(size, output) => cmd_of size output) test_sizes /\
  In (BatchSummary 2 3) (printed w).
Proof. split; [reflexivity|]. vm_compute. tauto. Qed.

(** ** Theorems about the artifact inspector and the budget verifier *)

(** C8.  For every list of paths and every world, the inspection returns
    without raising, leaves the file system and the command log as they
    were, and prints, path by path in order, either that the path exists
    followed by its size, or that it is missing; every size printed is
    non-negative. *)
Theorem inspect_reports_every_path (files : list string) (w : World) :
  inspect files w =
    (Return tt,
     mkWorld (fs w) (spawned w)
       (printed w ++ concat (map (report_of (fs w)) files))) /\
  Forall (fun l => match l with FileSize size => 0 <= size | _ => True end)
    (concat (map (report_of (fs w)) files)).
Proof.
  split.
  - revert w. induction files as [|file rest IH]; intros w.
    + simpl. unfold ret. rewrite app_nil_r. now destruct w.
    + cbn [inspect]. unfold bind at 1. unfold bind at 1.
      unfold path_exists at 1. cbn [map concat]. unfold report_of at 1.
      destruct (fs w !! file) as [n|] eqn:Hfile.
      * unfold bind, print, getsize. simpl. rewrite Hfile. rewrite IH. simpl.
        now rewrite <- !app_assoc.
      * unfold print. rewrite IH. simpl. now rewrite <- !app_assoc.
  - induction files as [|file rest IH]; [constructor|].
    cbn [map concat]. apply Forall_app. split; [|assumption].
    unfold report_of. destruct (fs w !! file) as [n|]; repeat constructor.
    lia.
Qed.

(** One file of 1024 bytes and one missing path. *)
Example inspect_one_present_one_missing :
  inspect [p20; p60] only_20 =
    (Return tt,
     mkWorld (fs only_20) [] [FileExists p20; FileSize 1024; FileMissing p60]).
Proof. reflexivity. Qed.

Lemma measure_run (p : string) (report : Z -> Line) (w : World) :
  measure p report w =
    (Return (Z.of_N <$> fs w !! p),
     mkWorld (fs w) (spawned w) (printed w ++ size_line report (fs w !! p))).
Proof.
  unfold measure, bind, path_exists, getsize, print, ret. simpl.
  destruct (fs w !! p) as [n|] eqn:Hp; simpl.
  - rewrite Hp. reflexivity.
  - rewrite app_nil_r. now destruct w.
Qed.

(** C1 (as amended).  [check_memory_usage] never raises and changes
    nothing on disk; the total it prints is the sum of the two sizes when
    both artifacts exist and 0 when either is missing, and the flash
    occupancy it prints is that total over 2097152 as a percentage. *)
Theorem check_memory_usage_total (w : World) :
  let size_20 := fs w !! "src/fonts/lv_font_zpix_20.c" in
  let size_60 := fs w !! "src/fonts/lv_font_zpix_60.c" in
  let total := total_of size_20 size_60 in
  check_memory_usage w =
    (Return tt,
     mkWorld (fs w) (spawned w)
       (printed w ++
        [MemoryHeader] ++ size_line Size20 size_20 ++ size_line Size60 size_60 ++
        [ Total total (inject_Z total / inject_Z 1024)%Q;
          Esp32Header;
          FlashUsage (flash_percent total 2097152) total 2097152;
          RamNote ])) /\
  (flash_percent total 2097152 == (total * 100) # 2097152)%Q.
Proof.
  intros size_20 size_60 total. split.
  - unfold check_memory_usage. unfold bind at 1. unfold print at 1.
    unfold bind at 1. rewrite measure_run.
    unfold bind at 1. rewrite measure_run.
    cbn [fs spawned printed].
    fold size_20 size_60.
    replace (memory_total (Z.of_N <$> size_20) (Z.of_N <$> size_60))
      with total by (subst total; now destruct size_20, size_60).
    unfold bind, print. simpl. rewrite <- !app_assoc. reflexivity.
  - unfold flash_percent, Qeq. simpl. lia.
Qed.

(** C1, the claim as stated fails: with the first artifact 1024 bytes long
    and the second missing, the total printed is 0 and the flash occupancy
    printed is 0; no total of 1024 is printed. *)
Lemma check_memory_usage_missing_zeroes_total :
  fs only_20 !! p20 = Some 1024%N /\ fs only_20 !! p60 = None /\
  (exists kb pct,
     check_memory_usage only_20 =
       (Return tt,
        mkWorld (fs only_20) []
          [ MemoryHeader; Size20 1024; Total 0 kb; Esp32Header;
            FlashUsage pct 0 2097152; RamNote ]) /\
     (pct == 0)%Q) /\
  (forall kb, ~ In (Total 1024 kb) (printed (snd (check_memory_usage only_20)))).
Proof.
  split; [reflexivity|]. split; [reflexivity|]. split.
  - exists (inject_Z 0 / inject_Z 1024)%Q, (flash_percent 0 esp32_flash).
    split; [vm_compute; reflexivity | reflexivity].
  - intros kb H. vm_compute in H.
    repeat (destruct H as [H | H]; [discriminate H|]). exact H.
Qed.

(** With both artifacts present, 1024 and 0 bytes long, the total is 1024
    and the flash occupancy is 25/512 percent, about 0.0488. *)
Example check_memory_usage_both_present :
  exists kb pct,
    check_memory_usage both_sizes =
      (Return tt,
       mkWorld (fs both_sizes) []
         [ MemoryHeader; Size20 1024; Size60 0; Total 1024 kb; Esp32Header;
           FlashUsage pct 1024 2097152; RamNote ]) /\
    (pct == 25 # 512)%Q.
Proof.
  exists (inject_Z 1024 / inject_Z 1024)%Q, (flash_percent 1024 esp32_flash).
  split; [vm_compute; reflexivity | reflexivity].
Qed.

(** * Further properties of the code *)

(** ** The decoding loop, token by token *)

Lemma append_chars_acc (l chars : list Z) :
  append_chars l chars =
    match append_chars l [] with
    | Return r => Return (chars ++ r)
    | Raise e => Raise e
    end.
Proof.
  revert chars.
  assert (H : forall l acc chars,
            append_chars l (chars ++ acc) =
              match append_chars l acc with
              | Return r => Return (chars ++ r)
              | Raise e => Raise e
              end).
  { clear l. induction l as [|i l IH]; intros acc chars; simpl; [reflexivity|].
    destruct (chr i) as [c|e]; simpl; [|reflexivity].
    rewrite <- app_assoc. apply IH. }
  intros chars. rewrite <- (H l [] chars). now rewrite app_nil_r.
Qed.

Lemma decode_token_acc (t : string) (chars : list Z) :
  decode_token t chars =
    match decode_token t [] with
    | Return r => Return (chars ++ r)
    | Raise e => Raise e
    end.
Proof.
  unfold decode_token. destruct (contains "-" t).
  - destruct (split "-" t) as [|a [|b [|? ?]]]; try reflexivity.
    destruct (int16 a); simpl; [|reflexivity].
    destruct (int16 b); simpl; [|reflexivity].
    apply append_chars_acc.
  - destruct (int16 t) as [v|]; simpl; [|reflexivity].
    destruct (chr v); reflexivity.
Qed.

Lemma decode_tokens_acc (ts : list string) (chars : list Z) :
  decode_tokens ts chars =
    match decode_tokens ts [] with
    | Return r => Return (chars ++ r)
    | Raise e => Raise e
    end.
Proof.
  assert (H : forall ts acc chars,
            decode_tokens ts (chars ++ acc) =
              match decode_tokens ts acc with
              | Return r => Return (chars ++ r)
              | Raise e => Raise e
              end).
  { clear. induction ts as [|t ts IH]; intros acc chars; simpl; [reflexivity|].
    rewrite (decode_token_acc t (chars ++ acc)), (decode_token_acc t acc).
    destruct (decode_token t []) as [r|e]; simpl; [|reflexivity].
    rewrite <- app_assoc. apply IH. }
  rewrite <- (H ts [] chars). now rewrite app_nil_r.
Qed.

Lemma decode_tokens_app (ts1 ts2 : list string) (chars : list Z) :
  decode_tokens (ts1 ++ ts2) chars =
    match decode_tokens ts1 chars with
    | Return r => decode_tokens ts2 r
    | Raise e => Raise e
    end.
Proof.
  revert chars. induction ts1 as [|t ts1 IH]; intros chars; simpl; [reflexivity|].
  destruct (decode_token t chars); simpl; [apply IH | reflexivity].
Qed.

Lemma split_sep_app (sep : ascii) (a b : string) :
  split sep (a +:+ String sep b) = split sep a ++ split sep b.
Proof.
  induction a as [|c a IH]; simpl.
  - now rewrite Ascii.eqb_refl.
  - destruct (Ascii.eqb c sep); [now rewrite IH|].
    rewrite IH. pose proof (split_not_nil sep a) as Hne.
    destruct (split sep a); [contradiction | reflexivity].
Qed.

Lemma decode_app (a b : string) :
  decode (a +:+ "," +:+ b) =
    match decode a with
    | Return l1 =>
        match decode b with
        | Return l2 => Return (l1 ++ l2)
        | Raise e => Raise e
        end
    | Raise e => Raise e
    end.
Proof.
  unfold decode. change (a +:+ "," +:+ b) with (a +:+ String "," b).
  rewrite split_sep_app, decode_tokens_app.
  destruct (decode_tokens (split "," a) []) as [l1|e]; [|reflexivity].
  apply decode_tokens_acc.
Qed.

(** X1.  Decoding two expressions joined by a comma decodes the first, then
    the second, and appends the results; the first exception met, in that
    order, is the one raised. *)
Theorem decode_comma_composes (a b : string) :
  decode (a +:+ "," +:+ b) =
    match decode a with
    | Return l1 =>
        match decode b with
        | Return l2 => Return (l1 ++ l2)
        | Raise e => Raise e
        end
    | Raise e => Raise e
    end.
Proof. apply decode_app. Qed.

Lemma decode_empty : decode "" = Raise ValueError.
Proof. reflexivity. Qed.

(** X2.  An empty token is an error wherever it stands: an expression that
    ends with a comma, starts with a comma or has two commas in a row makes
    the loop raise. *)
Theorem decode_empty_token_raises (a b : string) :
  raises (decode (a +:+ ",")) /\
  raises (decode ("," +:+ b)) /\
  raises (decode (a +:+ ",," +:+ b)).
Proof.
  assert (Hlead : forall x, raises (decode ("," +:+ x))).
  { intros x. change ("," +:+ x) with ("" +:+ "," +:+ x).
    rewrite decode_app, decode_empty. now exists ValueError. }
  repeat split.
  - change (a +:+ ",") with (a +:+ "," +:+ "").
    rewrite decode_app, decode_empty.
    destruct (decode a) as [l|e]; [now exists ValueError | now exists e].
  - apply Hlead.
  - change (a +:+ ",," +:+ b) with (a +:+ "," +:+ ("," +:+ b)).
    rewrite decode_app. destruct (Hlead b) as [e' ->].
    destruct (decode a) as [l|e]; [now exists e' | now exists e].
Qed.

Lemma append_chars_result (l chars r : list Z) :
  append_chars l chars = Return r -> r = chars ++ l /\ Forall code_point l.
Proof.
  intros H. pose proof (append_chars_Return l chars r H) as Hcp.
  rewrite (append_chars_ok l chars Hcp) in H. injection H as <-. auto.
Qed.

Lemma decode_token_result (t : string) (chars r : list Z) :
  decode_token t chars = Return r ->
  exists l, r = chars ++ l /\ Forall code_point l.
Proof.
  unfold decode_token. destruct (contains "-" t).
  - destruct (split "-" t) as [|a [|b [|? ?]]]; try discriminate.
    destruct (int16 a) as [lo|]; [|discriminate].
    destruct (int16 b) as [hi|]; [|discriminate]. simpl.
    intros H. apply append_chars_result in H. eauto.
  - destruct (int16 t) as [v|]; [|discriminate]. simpl.
    destruct (chr v) as [c|] eqn:Hc; [|discriminate]. simpl.
    intros [= <-]. apply chr_Return in Hc as [Hcp ->].
    exists [v]. split; [reflexivity | now constructor].
Qed.

Lemma decode_tokens_result (ts : list string) (chars r : list Z) :
  decode_tokens ts chars = Return r ->
  exists l, r = chars ++ l /\ Forall code_point l.
Proof.
  revert chars. induction ts as [|t ts IH]; intros chars; simpl.
  - intros [= <-]. exists []. split; [now rewrite app_nil_r | constructor].
  - destruct (decode_token t chars) as [c|] eqn:Ht; [|discriminate]. simpl.
    intros H. apply decode_token_result in Ht as (l1 & -> & H1).
    apply IH in H as (l2 & -> & H2).
    exists (l1 ++ l2). split; [now rewrite app_assoc | now apply Forall_app].
Qed.

(** X3.  Whatever the expression, when the loop ends without an exception
    every element of [chars] is a code point: none is negative and none is
    above 0x10FFFF. *)
Theorem decode_yields_code_points (expr : string) (chars : list Z) :
  decode expr = Return chars -> Forall (fun c => 0 <= c <= 1114111) chars.
Proof.
  unfold decode. intros H. apply decode_tokens_result in H as (l & -> & Hl).
  simpl. eapply Forall_impl; [exact Hl|]. unfold code_point. intros c Hc. lia.
Qed.

(** X3 at a single value and an interval. *)
Lemma decode_yields_code_points_witness :
  decode "0x41,0x61-0x63" = Return [65; 97; 98; 99] /\
  Forall (fun c => 0 <= c <= 1114111) [65; 97; 98; 99].
Proof.
  assert (H : decode "0x41,0x61-0x63" = Return [65; 97; 98; 99]) by reflexivity.
  split; [exact H|].
  exact (decode_yields_code_points _ _ H).
Defined.

Lemma int16_raises_ValueError (s : string) (e : exn) :
  int16 s = Raise e -> e = ValueError.
Proof.
  unfold int16. destruct (strip_sign (skip_space s)) as [sign s1].
  destruct (starts_with_underscore (strip_0x s1)); [congruence|].
  destruct (scan_digits false 0 (strip_0x s1)) as [[v rest]|]; [|congruence].
  destruct (Nat.eqb (String.length rest) (String.length (strip_0x s1)));
    [congruence|].
  destruct (skip_space rest); [discriminate | congruence].
Qed.

Lemma chr_raises (i : Z) (e : exn) :
  chr i = Raise e ->
  (e = ValueError /\ - 2147483648 <= i <= 2147483647) \/
  (e = OverflowError /\ ~ (- 2147483648 <= i <= 2147483647)).
Proof.
  unfold chr. destruct ((0 <=? i) && (i <? 1114112)); [discriminate|].
  destruct (-2147483648 <=? i) eqn:H0; destruct (i <=? 2147483647) eqn:H1;
    simpl; intros [= <-];
    rewrite ?Z.leb_le, ?Z.leb_gt in H0, H1; [left | right ..]; split;
    try reflexivity; lia.
Qed.

Lemma append_chars_raises (l chars : list Z) (e : exn) :
  append_chars l chars = Raise e -> e = ValueError \/ e = OverflowError.
Proof.
  revert chars. induction l as [|i l IH]; intros chars; simpl; [discriminate|].
  destruct (chr i) as [c|e'] eqn:Hc; simpl.
  - apply IH.
  - intros [= <-]. apply chr_raises in Hc as [[-> _] | [-> _]]; auto.
Qed.

Lemma decode_token_raises_kind (t : string) (chars : list Z) (e : exn) :
  decode_token t chars = Raise e -> e = ValueError \/ e = OverflowError.
Proof.
  unfold decode_token. destruct (contains "-" t).
  - destruct (split "-" t) as [|a [|b [|? ?]]];
      try (intros [= <-]; now left).
    destruct (int16 a) as [lo|e1] eqn:Ha; simpl;
      [|intros [= <-]; left; eapply int16_raises_ValueError; eassumption].
    destruct (int16 b) as [hi|e2] eqn:Hb; simpl;
      [|intros [= <-]; left; eapply int16_raises_ValueError; eassumption].
    apply append_chars_raises.
  - destruct (int16 t) as [v|e1] eqn:Ht; simpl;
      [|intros [= <-]; left; eapply int16_raises_ValueError; eassumption].
    destruct (chr v) as [c|e2] eqn:Hc; simpl; [discriminate|].
    intros [= <-]. apply chr_raises in Hc as [[-> _] | [-> _]]; auto.
Qed.

(** X4.  The only exceptions the loop raises are [ValueError] and
    [OverflowError]. *)
Theorem decode_raises_only_value_or_overflow (expr : string) (e : exn) :
  decode expr = Raise e -> e = ValueError \/ e = OverflowError.
Proof.
  unfold decode. generalize (@nil Z) as chars.
  induction (split "," expr) as [|t ts IH]; intros chars; simpl; [discriminate|].
  destruct (decode_token t chars) as [c|e'] eqn:Ht; simpl.
  - apply IH.
  - intros [= <-]. eapply decode_token_raises_kind; eassumption.
Qed.

(** X4 at a value that does not fit a C [int]. *)
Lemma decode_raises_only_value_or_overflow_witness :
  decode "0x30,100000000" = Raise OverflowError /\
  (OverflowError = ValueError \/ OverflowError = OverflowError).
Proof.
  assert (H : decode "0x30,100000000" = Raise OverflowError) by reflexivity.
  split; [exact H|].
  exact (decode_raises_only_value_or_overflow _ _ H).
Defined.

(** X5.  A hyphen is always the interval separator, never a sign: an
    expression that starts with a hyphen raises [ValueError], so no negative
    value can be written. *)
Theorem decode_leading_hyphen_raises (s : string) :
  decode (String "-" s) = Raise ValueError.
Proof.
  unfold decode.
  assert (Hsplit : exists t ts, split "," (String "-" s) = String "-" t :: ts).
  { simpl. pose proof (split_not_nil "," s) as Hne.
    destruct (split "," s) as [|t ts]; [contradiction | eauto]. }
  destruct Hsplit as (t & ts & ->). simpl decode_tokens.
  assert (Ht : decode_token (String "-" t) [] = Raise ValueError).
  { unfold decode_token. cbn [contains]. rewrite Ascii.eqb_refl. cbn [orb].
    cbn [split]. rewrite Ascii.eqb_refl.
    pose proof (split_not_nil "-" t) as Hne.
    destruct (split "-" t) as [|b [|? ?]]; [contradiction | | reflexivity].
    reflexivity. }
  now rewrite Ht.
Qed.

(** ** The probe and the invoker, case by case *)

Section RegenerateMore.

Variable process :
  list (list string) -> gmap string N -> list string -> Z -> RunResult * gmap string N.

Lemma check_lv_font_conv_run (w : World) :
  let r := process (spawned w) (fs w) ["npx"; "lv_font_conv"; "--help"] 10 in
  let b := match fst r with
           | Completed p => returncode p =? 0
           | Failed _ => false
           end in
  check_lv_font_conv process w =
    (Return b,
     mkWorld (snd r) (spawned w ++ [["npx"; "lv_font_conv"; "--help"]])
       (printed w ++ [if b then ToolAvailable else ToolUnavailable])).
Proof.
  cbv zeta.
  unfold check_lv_font_conv, bind, try_except, subprocess_run, print, ret.
  simpl.
  destruct (process (spawned w) (fs w) ["npx"; "lv_font_conv"; "--help"] 10)
    as [[p | e] fs']; simpl; [|reflexivity].
  destruct (returncode p =? 0); reflexivity.
Qed.

(** X6.  The probe runs exactly one command, the help invocation of the
    tool with a timeout of 10, leaves the file system as that process left
    it, and prints exactly one line: the tool is available when it returns
    [True], unavailable when it returns [False]. *)
Theorem check_lv_font_conv_one_command_one_line (w : World) :
  exists b : bool,
    check_lv_font_conv process w =
      (Return b,
       mkWorld
         (snd (process (spawned w) (fs w) ["npx"; "lv_font_conv"; "--help"] 10))
         (spawned w ++ [["npx"; "lv_font_conv"; "--help"]])
         (printed w ++ [if b then ToolAvailable else ToolUnavailable])).
Proof. eexists. apply check_lv_font_conv_run. Qed.

(** X7.  When the font source exists and the run of the tool does not end
    with exit code zero, [generate_font] returns [False] after exactly one
    diagnostic line: the captured error stream for another exit code, the
    timeout line for [TimeoutExpired], the exception for any other one. *)
Theorem generate_font_failure_lines (size : Z) (output_file : string) (w : World) :
  is_Some (fs w !! "zpix.ttf") ->
  let r := process (spawned w) (fs w) (cmd_of size output_file) 60 in
  (forall p, fst r = Completed p -> returncode p <> 0) ->
  generate_font process size output_file w =
    (Return false,
     mkWorld (snd r) (spawned w ++ [cmd_of size output_file])
       (printed w ++
        [ Generating size;
          CommandLine (join " " (cmd_of size output_file));
          match fst r with
          | Completed p => GenerationFailed (stderr p)
          | Failed TimeoutExpired => GenerationTimeout
          | Failed e => GenerationError e
          end ])).
Proof.
  intros Hsrc r Hfail. rewrite generate_font_run by assumption.
  cbv zeta. fold r. unfold classify.
  destruct (fst r) as [p | e] eqn:Hr.
  - specialize (Hfail p eq_refl). apply Z.eqb_neq in Hfail. rewrite Hfail.
    reflexivity.
  - destruct e; reflexivity.
Qed.

(** ** Batches *)

Lemma successes_bounds (oks : list bool) :
  0 <= successes oks <= Z.of_nat (length oks).
Proof. induction oks as [|[] oks IH]; simpl length; simpl successes; lia. Qed.

Lemma generate_fonts_run (sizes : list (Z * string)) (w : World) :
  exists oks w',
    attempts process sizes
      (mkWorld (fs w) (spawned w) (printed w ++ [BatchHeader])) oks w' /\
    length oks = length sizes /\
    generate_fonts process sizes w =
      (Return tt,
       mkWorld (fs w') (spawned w')
         (printed w' ++ batch_footer (successes oks) (Z.of_nat (length sizes)))).
Proof.
  destruct (count_generated_attempts process sizes 0
              (mkWorld (fs w) (spawned w) (printed w ++ [BatchHeader])))
    as (oks & w' & Hatt & Hlen & _ & Hcount).
  exists oks, w'. repeat split; try assumption.
  unfold generate_fonts, bind at 1. unfold print at 1.
  unfold bind at 1. rewrite Z.add_0_l in Hcount. rewrite Hcount.
  unfold batch_footer, bind, print, ret. simpl.
  destruct (0 <? successes oks); simpl; rewrite <- ?app_assoc; reflexivity.
Qed.

(** X8.  The number of successes in the summary line of a batch lies
    between 0 and the number of requested sizes, and the advice follows the
    summary exactly when that number is positive. *)
Theorem generate_fonts_summary_bounds (sizes : list (Z * string)) (w : World) :
  exists before n,
    printed (snd (generate_fonts process sizes w)) =
      before ++
      BatchSummary n (Z.of_nat (length sizes)) ::
      (if 0 <? n then [Advice 0; Advice 1; Advice 2; Advice 3] else []) /\
    0 <= n <= Z.of_nat (length sizes).
Proof.
  destruct (generate_fonts_run sizes w) as (oks & w' & _ & Hlen & ->).
  exists (printed w'), (successes oks). split; [reflexivity|].
  rewrite <- Hlen. apply successes_bounds.
Qed.

Lemma attempts_missing (sizes : list (Z * string)) (w : World) (oks : list bool) (w' : World) :
  fs w !! "zpix.ttf" = None ->
  attempts process sizes w oks w' ->
  successes oks = 0 /\
  w' = mkWorld (fs w) (spawned w)
         (printed w ++ repeat SourceMissing (length sizes)).
Proof.
  intros Hsrc Hatt. induction Hatt as [w | size output rest w ok w1 oks w2 Hcall _ IH].
  - simpl. rewrite app_nil_r. split; [reflexivity | now destruct w].
  - rewrite generate_font_missing in Hcall by assumption.
    injection Hcall as <- <-. simpl in IH. destruct (IH Hsrc) as [Hs ->].
    split; [simpl; now rewrite Hs|]. simpl. now rewrite <- app_assoc.
Qed.

(** X9.  When the font source does not exist, a batch runs no command and
    leaves the file system alone: after the header it prints the
    missing-source line once per requested size, then a summary of 0
    successes, and no advice. *)
Theorem generate_fonts_missing_source (sizes : list (Z * string)) (w : World) :
  fs w !! "zpix.ttf" = None ->
  generate_fonts process sizes w =
    (Return tt,
     mkWorld (fs w) (spawned w)
       (printed w ++ [BatchHeader] ++
        repeat SourceMissing (length sizes) ++
        [BatchSummary 0 (Z.of_nat (length sizes))])).
Proof.
  intros Hsrc. destruct (generate_fonts_run sizes w) as (oks & w' & Hatt & _ & ->).
  apply attempts_missing in Hatt as [-> ->]; [|assumption].
  simpl. now rewrite <- !app_assoc.
Qed.

Lemma attempts_with_source (sizes : list (Z * string)) (w : World) (oks : list bool) (w' : World) :
  keeps_source process ->
  is_Some (fs w !! "zpix.ttf") ->
  attempts process sizes w oks w' ->
  is_Some (fs w' !! "zpix.ttf") /\
  spawned w' = spawned w ++ map (fun '(size, output) => cmd_of size output) sizes /\
  (always_exit_zero process -> successes oks = Z.of_nat (length sizes)) /\
  (never_exit_zero process -> successes oks = 0).
Proof.
  intros Hkeep Hsrc Hatt.
  induction Hatt as [w | size output rest w ok w1 oks w2 Hcall _ IH].
  - simpl. rewrite app_nil_r. auto.
  - rewrite generate_font_run in Hcall by assumption. cbv zeta in Hcall.
    injection Hcall as Hok Hw1. subst w1. simpl in IH.
    destruct IH as (Hsrc2 & Hsp & Hall & Hnone); [now apply Hkeep|].
    split; [assumption|]. split; [|split].
    + rewrite Hsp. simpl. now rewrite <- app_assoc.
    + intros Hzero. specialize (Hall Hzero).
      destruct (Hzero (spawned w) (fs w) (cmd_of size output) 60) as (p & Hp & Hrc).
      unfold classify in Hok. rewrite Hp in Hok.
      apply Z.eqb_eq in Hrc. rewrite Hrc in Hok. simpl in Hok. subst ok.
      cbn [successes length]. lia.
    + intros Hnz. specialize (Hnone Hnz). cbn [successes]. rewrite Hnone.
      unfold classify in Hok.
      destruct (fst (process (spawned w) (fs w) (cmd_of size output) 60))
        as [p | e] eqn:Hp.
      * specialize (Hnz _ _ _ _ _ Hp). apply Z.eqb_neq in Hnz.
        rewrite Hnz in Hok. simpl in Hok. now subst ok.
      * destruct e; simpl in Hok; now subst ok.
Qed.

(** X10.  When the font source exists and no run of the tool removes it, a
    batch runs exactly one command per requested size, in the order of the
    requests, each with that request's size and output path, whatever the
    runs return. *)
Theorem generate_fonts_commands (sizes : list (Z * string)) (w : World) :
  keeps_source process ->
  is_Some (fs w !! "zpix.ttf") ->
  spawned (snd (generate_fonts process sizes w)) =
    spawned w ++ map (fun '(size, output) => cmd_of size output) sizes.
Proof.
  intros Hkeep Hsrc.
  destruct (generate_fonts_run sizes w) as (oks & w' & Hatt & _ & ->).
  apply attempts_with_source in Hatt as (_ & Hsp & _); auto.
Qed.

(** X11.  When the font source exists, no run removes it and every run
    ends with exit code zero, the summary of a batch counts every requested
    size as a success. *)
Theorem generate_fonts_all_succeed (sizes : list (Z * string)) (w : World) :
  keeps_source process ->
  always_exit_zero process ->
  is_Some (fs w !! "zpix.ttf") ->
  exists before,
    printed (snd (generate_fonts process sizes w)) =
      before ++
      batch_footer (Z.of_nat (length sizes)) (Z.of_nat (length sizes)).
Proof.
  intros Hkeep Hzero Hsrc.
  destruct (generate_fonts_run sizes w) as (oks & w' & Hatt & _ & ->).
  apply attempts_with_source in Hatt as (_ & _ & Hall & _); auto.
  rewrite (Hall Hzero). eexists. reflexivity.
Qed.

Lemma attempts_none_succeed (sizes : list (Z * string)) (w : World) (oks : list bool) (w' : World) :
  never_exit_zero process ->
  attempts process sizes w oks w' ->
  successes oks = 0.
Proof.
  intros Hnz Hatt.
  induction Hatt as [w | size output rest w ok w1 oks w2 Hcall _ IH];
    [reflexivity|].
  cbn [successes]. rewrite IH.
  destruct (fs w !! "zpix.ttf") as [n|] eqn:Hsrc.
  - rewrite generate_font_run in Hcall by eauto. cbv zeta in Hcall.
    injection Hcall as Hok _. unfold classify in Hok.
    destruct (fst (process (spawned w) (fs w) (cmd_of size output) 60))
      as [p | e] eqn:Hp.
    + specialize (Hnz _ _ _ _ _ Hp). apply Z.eqb_neq in Hnz.
      rewrite Hnz in Hok. simpl in Hok. now subst ok.
    + destruct e; simpl in Hok; now subst ok.
  - rewrite generate_font_missing in Hcall by assumption.
    now injection Hcall as <- _.
Qed.

(** X12.  When no run of the tool ends with exit code zero, the summary of
    a batch counts no success and no advice is printed, whether the font
    source exists or not. *)
Theorem generate_fonts_none_succeed (sizes : list (Z * string)) (w : World) :
  never_exit_zero process ->
  exists before,
    printed (snd (generate_fonts process sizes w)) =
      before ++ [BatchSummary 0 (Z.of_nat (length sizes))].
Proof.
  intros Hnz.
  destruct (generate_fonts_run sizes w) as (oks & w' & Hatt & _ & ->).
  pose proof (attempts_none_succeed _ _ _ _ Hnz Hatt) as Hzero.
  rewrite Hzero. eexists. reflexivity.
Qed.

End RegenerateMore.

Import MoreExamples.

Lemma silent_tool_keeps_source : keeps_source silent_tool.
Proof. intros history fs cmd timeout H. exact H. Defined.

Lemma silent_tool_always_exit_zero : always_exit_zero silent_tool.
Proof.
  intros history fs cmd timeout. exists (mkCompleted 0 "" "").
  split; reflexivity.
Defined.

Lemma failing_tool_never_exit_zero : never_exit_zero failing_tool.
Proof.
  intros history fs cmd timeout p H. injection H as <-. discriminate.
Defined.

Lemma with_source_has_source : is_Some (fs with_source !! "zpix.ttf").
Proof. exists 1000%N. reflexivity. Defined.

(** X7 at a tool that exits with code 1. *)
Lemma generate_font_failure_lines_witness :
  (is_Some (fs with_source !! "zpix.ttf") /\
   forall p, fst (failing_tool [] (fs with_source) (cmd_of 30 out30) 60) = Completed p ->
             returncode p <> 0) /\
  generate_font failing_tool 30 out30 with_source =
    (Return false,
     mkWorld (fs with_source) [cmd_of 30 out30]
       [ Generating 30; CommandLine (join " " (cmd_of 30 out30));
         GenerationFailed "boom" ]).
Proof.
  assert (H : forall p,
            fst (failing_tool [] (fs with_source) (cmd_of 30 out30) 60) = Completed p ->
            returncode p <> 0).
  { intros p Hp. injection Hp as <-. discriminate. }
  split; [split; [exact with_source_has_source | exact H]|].
  exact (generate_font_failure_lines failing_tool 30 out30 with_source
           with_source_has_source H).
Defined.

(** X9 for the three sizes of the script, with nothing on disk. *)
Lemma generate_fonts_missing_source_witness :
  fs bare !! "zpix.ttf" = None /\
  generate_test_fonts silent_tool bare =
    (Return tt,
     mkWorld ∅ []
       [ BatchHeader; SourceMissing; SourceMissing; SourceMissing;
         BatchSummary 0 3 ]).
Proof.
  assert (H : fs bare !! "zpix.ttf" = None) by reflexivity.
  split; [exact H|].
  exact (generate_fonts_missing_source silent_tool test_sizes bare H).
Defined.

(** X10 for the three sizes of the script. *)
Lemma generate_fonts_commands_witness :
  (keeps_source silent_tool /\ is_Some (fs with_source !! "zpix.ttf")) /\
  spawned (snd (generate_test_fonts silent_tool with_source)) =
    [ cmd_of 30 "src/fonts/lv_font_zpix_30.c";
      cmd_of 80 "src/fonts/lv_font_zpix_80.c";
      cmd_of 100 "src/fonts/lv_font_zpix_100.c" ].
Proof.
  split; [split; [exact silent_tool_keeps_source | exact with_source_has_source]|].
  exact (generate_fonts_commands silent_tool test_sizes with_source
           silent_tool_keeps_source with_source_has_source).
Defined.

(** X11 for the three sizes of the script. *)
Lemma generate_fonts_all_succeed_witness :
  (keeps_source silent_tool /\ always_exit_zero silent_tool /\
   is_Some (fs with_source !! "zpix.ttf")) /\
  exists before,
    printed (snd (generate_test_fonts silent_tool with_source)) =
      before ++ [BatchSummary 3 3; Advice 0; Advice 1; Advice 2; Advice 3].
Proof.
  split;
    [split; [exact silent_tool_keeps_source |
             split; [exact silent_tool_always_exit_zero |
                     exact with_source_has_source]]|].
  exact (generate_fonts_all_succeed silent_tool test_sizes with_source
           silent_tool_keeps_source silent_tool_always_exit_zero
           with_source_has_source).
Defined.

(** X12 for the three sizes of the script. *)
Lemma generate_fonts_none_succeed_witness :
  never_exit_zero failing_tool /\
  exists before,
    printed (snd (generate_test_fonts failing_tool with_source)) =
      before ++ [BatchSummary 0 3].
Proof.
  split; [exact failing_tool_never_exit_zero|].
  exact (generate_fonts_none_succeed failing_tool test_sizes with_source
           failing_tool_never_exit_zero).
Defined.

(** ** The flash occupancy *)

Lemma check_memory_usage_run (w : World) :
  let size_20 := fs w !! "src/fonts/lv_font_zpix_20.c" in
  let size_60 := fs w !! "src/fonts/lv_font_zpix_60.c" in
  let total := total_of size_20 size_60 in
  check_memory_usage w =
    (Return tt,
     mkWorld (fs w) (spawned w)
       (printed w ++
        [MemoryHeader] ++ size_line Size20 size_20 ++ size_line Size60 size_60 ++
        [ Total total (inject_Z total / inject_Z 1024)%Q;
          Esp32Header;
          FlashUsage (flash_percent total esp32_flash) total esp32_flash;
          RamNote ])).
Proof.
  intros size_20 size_60 total.
  unfold check_memory_usage. unfold bind at 1. unfold print at 1.
  unfold bind at 1. rewrite measure_run.
  unfold bind at 1. rewrite measure_run.
  cbn [fs spawned printed]. fold size_20 size_60.
  replace (memory_total (Z.of_N <$> size_20) (Z.of_N <$> size_60))
    with total by (subst total; now destruct size_20, size_60).
  unfold bind, print. simpl. rewrite <- !app_assoc. reflexivity.
Qed.

(** X13.  When both artifacts exist, with sizes [a] and [b], the flash
    occupancy that [check_memory_usage] prints is that of [a + b] bytes; it
    is never negative, it is positive exactly when some artifact is not
    empty, and it is below 100 exactly when [a + b] is below 2097152. *)
Theorem check_memory_usage_flash_bounds (w : World) (a b : N) :
  fs w !! "src/fonts/lv_font_zpix_20.c" = Some a ->
  fs w !! "src/fonts/lv_font_zpix_60.c" = Some b ->
  exists pct,
    In (FlashUsage pct (Z.of_N a + Z.of_N b) 2097152)
       (printed (snd (check_memory_usage w))) /\
    (0 <= pct)%Q /\
    ((0 < pct)%Q <-> 0 < Z.of_N a + Z.of_N b) /\
    ((pct < 100)%Q <-> Z.of_N a + Z.of_N b < 2097152).
Proof.
  intros Ha Hb. rewrite check_memory_usage_run. cbv zeta. rewrite Ha, Hb.
  cbn [total_of snd printed].
  exists (flash_percent (Z.of_N a + Z.of_N b) esp32_flash). split.
  - apply in_or_app. right. simpl. auto 10.
  - unfold flash_percent, Qle, Qlt. simpl. lia.
Qed.

(** X13 with artifacts of 1024 and 0 bytes. *)
Lemma check_memory_usage_flash_bounds_witness :
  (fs both_sizes !! "src/fonts/lv_font_zpix_20.c" = Some 1024%N /\
   fs both_sizes !! "src/fonts/lv_font_zpix_60.c" = Some 0%N) /\
  exists pct,
    In (FlashUsage pct 1024 2097152)
       (printed (snd (check_memory_usage both_sizes))) /\
    (0 <= pct)%Q /\
    ((0 < pct)%Q <-> 0 < 1024) /\
    ((pct < 100)%Q <-> 1024 < 2097152).
Proof.
  assert (Ha : fs both_sizes !! "src/fonts/lv_font_zpix_20.c" = Some 1024%N)
    by reflexivity.
  assert (Hb : fs both_sizes !! "src/fonts/lv_font_zpix_60.c" = Some 0%N)
    by reflexivity.
  split; [split; [exact Ha | exact Hb]|].
  exact (check_memory_usage_flash_bounds both_sizes 1024 0 Ha Hb).
Defined.

(** ** The report script never changes anything *)

Lemma read_only_ret {A} (a : A) : read_only (ret a).
Proof. intros w. exists a, w. auto. Qed.

Lemma read_only_print (l : Line) : read_only (print l).
Proof. intros w. eexists tt, _. unfold print. auto. Qed.

Lemma read_only_path_exists (p : string) : read_only (path_exists p).
Proof. intros w. eexists _, w. unfold path_exists. auto. Qed.

Lemma read_only_bind {A B} (m : M A) (k : A -> M B) :
  read_only m -> (forall a, read_only (k a)) -> read_only (bind m k).
Proof.
  intros Hm Hk w. destruct (Hm w) as (a & w1 & Hrun & Hfs & Hsp).
  destruct (Hk a w1) as (b & w2 & Hrun2 & Hfs2 & Hsp2).
  exists b, w2. unfold bind. rewrite Hrun, Hrun2.
  repeat split; congruence.
Qed.

Lemma read_only_inspect (files : list string) : read_only (inspect files).
Proof.
  induction files as [|file rest IH]; [apply read_only_ret|].
  cbn [inspect]. apply read_only_bind; [|intros _; exact IH].
  intros w. unfold bind, path_exists, getsize, print.
  destruct (fs w !! file) as [n|] eqn:Hfile; simpl.
  - rewrite Hfile. eexists tt, _. auto.
  - eexists tt, _. auto.
Qed.

Lemma read_only_analyze_character_range : read_only analyze_character_range.
Proof.
  intros w. eexists tt, _.
  unfold analyze_character_range, bind, print, lift. cbv beta.
  rewrite decode_range_hex. simpl. auto.
Qed.

Lemma read_only_check_memory_usage : read_only check_memory_usage.
Proof.
  intros w. rewrite check_memory_usage_run. cbv zeta. eexists tt, _. auto.
Qed.

Lemma harmless_ret {A} (a : A) : harmless (Script.sret a).
Proof. intros s. exists a, s. auto. Qed.

Lemma harmless_note (n : Script.Note) : harmless (Script.note n).
Proof. intros s. eexists tt, _. unfold Script.note. auto. Qed.

Lemma harmless_call {A} (m : M A) : read_only m -> harmless (Script.call m).
Proof.
  intros Hm s. destruct (Hm (Script.world s)) as (a & w & Hrun & Hfs & Hsp).
  exists a, (Script.mkSession w (Script.notes s)).
  unfold Script.call. rewrite Hrun. auto.
Qed.

Lemma harmless_bind {A B} (m : Script.Act A) (k : A -> Script.Act B) :
  harmless m -> (forall a, harmless (k a)) -> harmless (Script.sbind m k).
Proof.
  intros Hm Hk s. destruct (Hm s) as (a & s1 & Hrun & Hfs & Hsp).
  destruct (Hk a s1) as (b & s2 & Hrun2 & Hfs2 & Hsp2).
  exists b, s2. unfold Script.sbind. rewrite Hrun, Hrun2.
  repeat split; congruence.
Qed.

Lemma harmless_for_each {A} (l : list A) (body : A -> Script.Act unit) :
  (forall x, harmless (body x)) -> harmless (Script.for_each l body).
Proof.
  intros Hbody. induction l as [|x l IH]; [apply harmless_ret|].
  cbn [Script.for_each]. apply harmless_bind; [apply Hbody | intros _; exact IH].
Qed.

Lemma harmless_check_font_file : harmless Script.check_font_file.
Proof.
  unfold Script.check_font_file.
  apply harmless_bind; [apply harmless_call, read_only_path_exists|].
  intros e. destruct e; simpl;
    (apply harmless_bind; [apply harmless_note | intros _; apply harmless_ret]).
Qed.

Lemma harmless_analyze_zpix_font : harmless Script.analyze_zpix_font.
Proof.
  unfold Script.analyze_zpix_font.
  apply harmless_bind; [apply harmless_note | intros _].
  apply harmless_bind; [apply harmless_call, read_only_path_exists|].
  intros e. destruct e; cbn [negb].
  - apply harmless_for_each. intros x. apply harmless_note.
  - apply harmless_note.
Qed.

(** As long as writing to the terminal succeeds (in this model it always
    does), the main function of [test_zpix_font.py] returns, runs no command
    and leaves the file system as it found it. *)
Lemma test_main_changes_nothing (s : Script.Session) :
  exists s',
    Script.test_main s = (Script.Done tt, s') /\
    fs (Script.world s') = fs (Script.world s) /\
    spawned (Script.world s') = spawned (Script.world s).
Proof.
  assert (Hopt : harmless Script.optimize_font_parameters).
  { unfold Script.optimize_font_parameters.
    apply harmless_bind; [apply harmless_note | intros _].
    apply harmless_for_each. intros x. apply harmless_note. }
  assert (Himp : harmless Script.suggest_improvements).
  { unfold Script.suggest_improvements.
    apply harmless_bind; [apply harmless_note | intros _].
    apply harmless_for_each. intros [i x]. apply harmless_note. }
  assert (H : harmless Script.test_main).
  { unfold Script.test_main.
    apply harmless_bind; [apply harmless_note | intros _].
    apply harmless_bind; [apply harmless_note | intros _].
    apply harmless_bind; [apply harmless_check_font_file | intros _].
    apply harmless_bind; [apply harmless_call, read_only_inspect | intros _].
    apply harmless_bind;
      [apply harmless_call, read_only_analyze_character_range | intros _].
    apply harmless_bind; [exact Hopt | intros _].
    apply harmless_bind; [exact Himp | intros _].
    apply harmless_bind;
      [apply harmless_call, read_only_check_memory_usage | intros _].
    apply harmless_note. }
  destruct (H s) as ([] & s' & Hrun & Hfs & Hsp). eauto.
Qed.

(** The terminal after the report script, with only the 20px artifact on
    disk: the lines of both logs in the order of the source. *)
Example test_main_transcript :
  map (fun l => match l with
                | inl (FileExists _) | inl (FileMissing _) | inl MemoryHeader
                | inl RangeHeader | inl (RangeCount _) => Some l
                | inr Script.TestBanner | inr (Script.FontFileMissing _)
                | inr Script.OptimizeHeader | inr Script.ImproveHeader
                | inr Script.TestDone => Some l
                | _ => None
                end)
      (Script.transcript (snd (Script.test_main (session_of only_20))))
  ≫= (fun o => match o with Some l => [l] | None => [] end) =
  [ inr Script.TestBanner;
    inr (Script.FontFileMissing "zpix.ttf");
    inl (FileExists p20); inl (FileMissing p60);
    inl (FileMissing "src/fonts/lv_font_zpix.h");
    inl RangeHeader; inl (RangeCount 35);
    inr Script.OptimizeHeader; inr Script.ImproveHeader;
    inl MemoryHeader;
    inr Script.TestDone ].
Proof. vm_compute. reflexivity. Qed.

(** ** The answer to the prompt *)

Lemma lower_char_facts_all (c : ascii) : lower_char_facts c = true.
Proof. destruct c as [[] [] [] [] [] [] [] []]; vm_compute; reflexivity. Qed.

Lemma lower_char_inv (c x X : ascii) :
  (x = "y"%char /\ X = "Y"%char) \/ (x = "e"%char /\ X = "E"%char) \/
  (x = "s"%char /\ X = "S"%char) ->
  PyStr.lower_char c = x -> c = x \/ c = X.
Proof.
  intros Hx Hc. pose proof (lower_char_facts_all c) as F.
  unfold lower_char_facts in F.
  apply andb_true_iff in F as [F Fs]. apply andb_true_iff in F as [Fy Fe].
  destruct Hx as [[-> ->] | [[-> ->] | [-> ->]]].
  - rewrite Hc, Ascii.eqb_refl in Fy.
    apply orb_true_iff in Fy as [H | H]; apply Ascii.eqb_eq in H; auto.
  - rewrite Hc, Ascii.eqb_refl in Fe.
    apply orb_true_iff in Fe as [H | H]; apply Ascii.eqb_eq in H; auto.
  - rewrite Hc, Ascii.eqb_refl in Fs.
    apply orb_true_iff in Fs as [H | H]; apply Ascii.eqb_eq in H; auto.
Qed.

Lemma lower_yes_inv (core : string) :
  PyStr.str_in (PyStr.lower core) ["y"; "yes"] = true -> In core yes_words.
Proof.
  unfold PyStr.str_in. rewrite orb_false_r. intros H.
  apply orb_true_iff in H as [H | H]; apply String.eqb_eq in H.
  - destruct core as [|c1 [|c2 r]]; try discriminate.
    injection H as H1.
    destruct (lower_char_inv c1 "y" "Y" ltac:(auto) H1) as [-> | ->];
      unfold yes_words; simpl; auto.
  - destruct core as [|c1 [|c2 [|c3 [|c4 r]]]]; try discriminate.
    injection H as H1 H2 H3.
    destruct (lower_char_inv c1 "y" "Y" ltac:(auto) H1) as [-> | ->];
      destruct (lower_char_inv c2 "e" "E" ltac:(auto 6) H2) as [-> | ->];
      destruct (lower_char_inv c3 "s" "S" ltac:(auto 6) H3) as [-> | ->];
      unfold yes_words; simpl; auto 12.
Qed.

Lemma lstrip_parts (s : string) :
  exists pre, s = pre +:+ PyStr.lstrip s /\ all_space pre = true.
Proof.
  induction s as [|c s (pre & IH & Hpre)].
  - exists "". auto.
  - simpl. destruct (PyStr.isspace c) eqn:Hc.
    + exists (String c pre). simpl. rewrite Hc, Hpre, <- IH. auto.
    + exists "". auto.
Qed.

Lemma rstrip_parts (s : string) :
  exists post, s = PyStr.rstrip s +:+ post /\ all_space post = true.
Proof.
  induction s as [|c s (post & IH & Hpost)].
  - exists "". auto.
  - simpl. destruct (PyStr.rstrip s) as [|d r'] eqn:Hr.
    + destruct (PyStr.isspace c) eqn:Hc.
      * exists (String c post). simpl in *. subst s. now rewrite Hc, Hpost.
      * exists post. simpl in *. now subst s.
    + exists post. simpl in *. now rewrite <- IH.
Qed.

Lemma lstrip_spaces (pre s : string) :
  all_space pre = true -> PyStr.lstrip (pre +:+ s) = PyStr.lstrip s.
Proof.
  induction pre as [|c pre IH]; simpl; [reflexivity|].
  intros H. apply andb_true_iff in H as [Hc Hpre]. rewrite Hc. auto.
Qed.

Lemma rstrip_all_space (post : string) :
  all_space post = true -> PyStr.rstrip post = "".
Proof.
  induction post as [|c post IH]; simpl; [reflexivity|].
  intros H. apply andb_true_iff in H as [Hc Hpost].
  now rewrite (IH Hpost), Hc.
Qed.

Lemma rstrip_spaces (s post : string) :
  all_space post = true ->
  PyStr.rstrip (s +:+ post) = PyStr.rstrip s.
Proof.
  intros Hpost. induction s as [|c s IH]; simpl.
  - now apply rstrip_all_space.
  - now rewrite IH.
Qed.

Lemma strip_yes_word (pre core post : string) :
  all_space pre = true -> all_space post = true -> In core yes_words ->
  PyStr.strip (pre +:+ core +:+ post) = core.
Proof.
  intros Hpre Hpost Hcore. unfold PyStr.strip.
  rewrite lstrip_spaces by assumption.
  assert (Hl : PyStr.lstrip (core +:+ post) = core +:+ post).
  { unfold yes_words in Hcore. simpl in Hcore.
    repeat (destruct Hcore as [<- | Hcore]; [reflexivity|]). contradiction. }
  rewrite Hl, rstrip_spaces by assumption.
  unfold yes_words in Hcore. simpl in Hcore.
  repeat (destruct Hcore as [<- | Hcore]; [reflexivity|]). contradiction.
Qed.

(** X15.  The answer to the prompt counts as a yes exactly when it is the
    word y or the word yes, in any mix of letter cases, with any white space
    before and after it. *)
Theorem answer_is_yes_iff (line : string) :
  PyStr.str_in (PyStr.lower (PyStr.strip line)) ["y"; "yes"] = true <->
  exists pre core post,
    line = pre +:+ core +:+ post /\
    all_space pre = true /\ all_space post = true /\
    In core yes_words.
Proof.
  split.
  - intros H. apply lower_yes_inv in H.
    destruct (lstrip_parts line) as (pre & Hline & Hpre).
    destruct (rstrip_parts (PyStr.lstrip line)) as (post & Hrest & Hpost).
    exists pre, (PyStr.strip line), post. unfold PyStr.strip in *.
    repeat split; try assumption. now rewrite <- Hrest.
  - intros (pre & core & post & -> & Hpre & Hpost & Hcore).
    rewrite strip_yes_word by assumption.
    unfold yes_words in Hcore. simpl in Hcore.
    repeat (destruct Hcore as [<- | Hcore]; [reflexivity|]). contradiction.
Qed.

(** Answers that count as a yes, and answers that do not. *)
Example answers :
  map (fun line => PyStr.str_in (PyStr.lower (PyStr.strip line)) ["y"; "yes"])
    [ "y"; "Y"; " yes "; "YES"; ""; "n"; "no"; "yeah"; "y es"; "ye"; "yess" ] =
    [ true; true; true; true; false; false; false; false; false; false; false ].
Proof. reflexivity. Qed.

(** ** The main function of the regeneration script *)

Section RegenerateMain.

Variable process :
  list (list string) -> gmap string N -> list string -> Z -> RunResult * gmap string N.

Lemma sbind_note {B} (n : Script.Note) (k : unit -> Script.Act B) (s : Script.Session) :
  Script.sbind (Script.note n) k s =
    k tt (Script.mkSession (Script.world s)
            (Script.notes s ++ [(length (printed (Script.world s)), n)])).
Proof. reflexivity. Qed.

Lemma analyze_zpix_font_run (s : Script.Session) :
  exists more,
    Script.analyze_zpix_font s =
      (Script.Done tt, Script.mkSession (Script.world s) (Script.notes s ++ more)) /\
    ~ In Script.Prompt (map snd more).
Proof.
  unfold Script.analyze_zpix_font, Script.sbind, Script.note, Script.call,
    path_exists. cbn [Script.world Script.notes].
  destruct (fs (Script.world s) !! "zpix.ttf"); cbn [negb].
  - cbn [Script.for_each]. unfold Script.sbind, Script.note, Script.sret.
    cbn [Script.world Script.notes].
    rewrite <- ?app_assoc. eexists. split; [reflexivity|].
    simpl. intros H. repeat (destruct H as [H | H]; [discriminate H|]). exact H.
  - cbn [Script.world Script.notes].
    rewrite <- ?app_assoc. eexists. split; [reflexivity|].
    simpl. intros H. repeat (destruct H as [H | H]; [discriminate H|]). exact H.
Qed.

Lemma regenerate_main_start (reply : option string) (s : Script.Session) :
  let w := Script.world s in
  let r := process (spawned w) (fs w) ["npx"; "lv_font_conv"; "--help"] 10 in
  let b := match fst r with
           | Completed p => returncode p =? 0
           | Failed _ => false
           end in
  let w1 := mkWorld (snd r) (spawned w ++ [["npx"; "lv_font_conv"; "--help"]])
              (printed w ++ [if b then ToolAvailable else ToolUnavailable]) in
  exists more,
    ~ In Script.Prompt (map snd more) /\
    Script.regenerate_main process reply s =
      (if negb b then
         Script.sbind (Script.note (Script.InstallHelp 120))
           (fun _ => Script.note (Script.InstallHelp 121))
       else
         Script.sbind (Script.input reply)
           (fun line =>
              Script.sbind
                (if PyStr.str_in (PyStr.lower (PyStr.strip line)) ["y"; "yes"]
                 then Script.call (generate_test_fonts process)
                 else Script.sret tt)
                (fun _ => Script.note Script.RegenDone)))
        (Script.mkSession w1 (Script.notes s ++ more)).
Proof.
  intros w r b w1.
  unfold Script.regenerate_main.
  rewrite !sbind_note.
  unfold Script.sbind at 1.
  match goal with
  | |- context [Script.analyze_zpix_font ?s0] =>
      destruct (analyze_zpix_font_run s0) as (more & Hrun & Hmore);
      rewrite Hrun
  end.
  cbn [Script.world Script.notes].
  unfold Script.sbind at 1. unfold Script.call at 1.
  cbn [Script.world Script.notes].
  rewrite check_lv_font_conv_run. cbv zeta. fold w r b w1.
  rewrite <- !app_assoc.
  eexists. split; [|reflexivity].
  rewrite !map_app. simpl. intros H.
  destruct H as [H | [H | H]]; try discriminate. contradiction.
Qed.

(** X16.  When the probe does not end with exit code zero, the main
    function returns after the probe: it prints the install instructions,
    never prompts, whatever the user would have typed, and runs no command
    besides the probe. *)
Theorem regenerate_main_tool_unavailable (reply : option string) (s : Script.Session) :
  let w := Script.world s in
  let r := process (spawned w) (fs w) ["npx"; "lv_font_conv"; "--help"] 10 in
  (forall p, fst r = Completed p -> returncode p <> 0) ->
  exists more,
    Script.regenerate_main process reply s =
      (Script.Done tt,
       Script.mkSession
         (mkWorld (snd r) (spawned w ++ [["npx"; "lv_font_conv"; "--help"]])
            (printed w ++ [ToolUnavailable]))
         (Script.notes s ++ more)) /\
    ~ In Script.Prompt (map snd more) /\
    In (Script.InstallHelp 120) (map snd more) /\
    In (Script.InstallHelp 121) (map snd more).
Proof.
  intros w r Hfail.
  destruct (regenerate_main_start reply s) as (more & Hmore & ->).
  fold w r.
  assert (Hb : match fst r with
               | Completed p => returncode p =? 0
               | Failed _ => false
               end = false).
  { destruct (fst r) as [p | e] eqn:Hr; [|reflexivity].
    apply Z.eqb_neq. now apply Hfail. }
  rewrite Hb. cbn [negb].
  unfold Script.sbind, Script.note. cbn [Script.world Script.notes].
  rewrite <- !app_assoc. eexists. split; [reflexivity|].
  rewrite !map_app. cbn [map snd]. repeat split.
  - intros H. apply in_app_or in H as [H | H]; [contradiction|].
    simpl in H. destruct H as [H | [H | H]]; try discriminate. exact H.
  - apply in_or_app. right. simpl. auto.
  - apply in_or_app. right. simpl. auto.
Qed.

(** X17.  When the probe ends with exit code zero, the main function
    prompts once.  At the end of input it stops with [EOFError] and
    generates nothing.  Otherwise it returns, and it has run the batch of
    [generate_test_fonts] exactly when the answer, stripped and lower-cased,
    is y or yes; after any other answer the world is as the probe left it. *)
Theorem regenerate_main_tool_available
    (reply : option string) (s : Script.Session) (p : CompletedProcess) :
  let w := Script.world s in
  let r := process (spawned w) (fs w) ["npx"; "lv_font_conv"; "--help"] 10 in
  let w1 := mkWorld (snd r) (spawned w ++ [["npx"; "lv_font_conv"; "--help"]])
              (printed w ++ [ToolAvailable]) in
  fst r = Completed p ->
  returncode p = 0 ->
  exists more,
    In Script.Prompt (map snd more) /\
    Script.regenerate_main process reply s =
      (match reply with
       | Some _ => Script.Done tt
       | None => Script.Uncaught Script.EOFError
       end,
       Script.mkSession
         (match reply with
          | Some line =>
              if PyStr.str_in (PyStr.lower (PyStr.strip line)) ["y"; "yes"]
              then snd (generate_test_fonts process w1)
              else w1
          | None => w1
          end)
         (Script.notes s ++ more)).
Proof.
  intros w r w1 Hr Hrc.
  destruct (regenerate_main_start reply s) as (more & Hmore & ->).
  fold w r. rewrite Hr. apply Z.eqb_eq in Hrc. rewrite Hrc. cbn [negb].
  fold w1.
  unfold Script.input, Script.sbind at 1. unfold Script.sbind at 1.
  unfold Script.note at 1. cbn [Script.world Script.notes].
  destruct reply as [line|].
  - unfold Script.sret at 1.
    destruct (PyStr.str_in (PyStr.lower (PyStr.strip line)) ["y"; "yes"]).
    + unfold Script.sbind, Script.call, Script.note.
      cbn [Script.world Script.notes].
      destruct (generate_fonts_run process test_sizes w1) as (oks & w2 & _ & _ & Hrun).
      unfold generate_test_fonts. rewrite Hrun. cbn [snd Script.world Script.notes].
      rewrite <- !app_assoc. eexists. split; [|reflexivity].
      rewrite map_app. apply in_or_app. right. simpl. auto.
    + unfold Script.sbind, Script.sret, Script.note.
      cbn [Script.world Script.notes].
      rewrite <- !app_assoc. eexists. split; [|reflexivity].
      rewrite map_app. apply in_or_app. right. simpl. auto.
  - unfold Script.sraise. rewrite <- !app_assoc. eexists. split; [|reflexivity].
    rewrite map_app. apply in_or_app. right. simpl. auto.
Qed.

End RegenerateMain.

(** ** The build directories *)

Import DetectOs.

(** X18.  [detect_os] changes the construction environment only on
    Windows, and there only the two directory variables, which it sets to
    the fixed paths; every other variable keeps its value, and running it
    again changes nothing more. *)
Theorem detect_os_sets_only_the_two_dirs (system : string) (env : gmap string string) :
  let env' := fst (detect_os system env) in
  (system <> "Windows" -> env' = env) /\
  (system = "Windows" ->
     env' !! "BUILD_DIR" = Some "C:\build\pawcounter" /\
     env' !! "CORE_DIR" = Some "C:\platformio\pawcounter") /\
  (forall k, k <> "BUILD_DIR" -> k <> "CORE_DIR" -> env' !! k = env !! k) /\
  fst (detect_os system env') = env'.
Proof.
  cbv zeta. unfold detect_os.
  destruct (String.eqb system "Windows") eqn:Hsys; cbn [fst].
  - apply String.eqb_eq in Hsys. repeat split.
    + congruence.
    + unfold replace_dirs. rewrite lookup_insert_ne by discriminate.
      apply lookup_insert_eq.
    + unfold replace_dirs. apply lookup_insert_eq.
    + intros k Hb Hc. unfold replace_dirs.
      rewrite !lookup_insert_ne by congruence. reflexivity.
    + unfold replace_dirs. apply map_eq. intros k.
      destruct (decide (k = "CORE_DIR")) as [-> | Hc].
      * now rewrite !lookup_insert_eq.
      * rewrite !(lookup_insert_ne _ "CORE_DIR") by congruence.
        destruct (decide (k = "BUILD_DIR")) as [-> | Hb].
        -- now rewrite !lookup_insert_eq.
        -- now rewrite !lookup_insert_ne by congruence.
  - apply String.eqb_neq in Hsys.
    split; [reflexivity|]. split; [intros Hw; contradiction|].
    split; reflexivity.
Qed.

(** On Windows with one variable set beforehand, and on Linux. *)
Example detect_os_examples :
  fst (detect_os "Windows" some_env) =
    <[ "CORE_DIR" := "C:\platformio\pawcounter" ]>
      (<[ "BUILD_DIR" := "C:\build\pawcounter" ]> {[ "CC" := "gcc" ]}) /\
  snd (detect_os "Windows" some_env) = DetectedWindows /\
  detect_os "Linux" some_env = (some_env, DetectedOther "Linux") /\
  detect_os "windows" some_env = (some_env, DetectedOther "windows").
Proof. repeat split. Qed.

(** X16 at a tool that cannot be started, with an answer that is never
    read. *)
Lemma regenerate_main_tool_unavailable_witness :
  (forall p,
     fst (absent_tool [] (fs bare) ["npx"; "lv_font_conv"; "--help"] 10) = Completed p ->
     returncode p <> 0) /\
  exists more,
    Script.regenerate_main absent_tool (Some "y") (session_of bare) =
      (Script.Done tt,
       Script.mkSession
         (mkWorld ∅ [["npx"; "lv_font_conv"; "--help"]] [ToolUnavailable])
         more) /\
    ~ In Script.Prompt (map snd more).
Proof.
  assert (H : forall p,
            fst (absent_tool [] (fs bare) ["npx"; "lv_font_conv"; "--help"] 10)
              = Completed p ->
            returncode p <> 0).
  { intros p Hp. discriminate Hp. }
  split; [exact H|].
  destruct (regenerate_main_tool_unavailable absent_tool (Some "y")
              (session_of bare) H) as (more & Hrun & Hprompt & _).
  exists more. split; [exact Hrun | exact Hprompt].
Defined.

(** X17 at a tool that exits with code 0 and the answer Yes between
    blanks. *)
Lemma regenerate_main_tool_available_witness :
  (fst (silent_tool [] (fs with_source) ["npx"; "lv_font_conv"; "--help"] 10)
     = Completed (mkCompleted 0 "" "") /\
   returncode (mkCompleted 0 "" "") = 0) /\
  exists more,
    In Script.Prompt (map snd more) /\
    Script.regenerate_main silent_tool (Some " Yes ") (session_of with_source) =
      (Script.Done tt,
       Script.mkSession
         (snd (generate_test_fonts silent_tool
                 (mkWorld (fs with_source) [["npx"; "lv_font_conv"; "--help"]]
                    [ToolAvailable])))
         more).
Proof.
  assert (H1 : fst (silent_tool [] (fs with_source)
                      ["npx"; "lv_font_conv"; "--help"] 10)
               = Completed (mkCompleted 0 "" "")) by reflexivity.
  assert (H2 : returncode (mkCompleted 0 "" "") = 0) by reflexivity.
  split; [split; [exact H1 | exact H2]|].
  destruct (regenerate_main_tool_available silent_tool (Some " Yes ")
              (session_of with_source) (mkCompleted 0 "" "") H1 H2)
    as (more & Hprompt & Hrun).
  exists more. split; [exact Hprompt | exact Hrun].
Defined.
